(** * The Playwright node: a model of [Playwright.execute]

    The node's [execute] method walks over the input items of the host
    workflow; for every item it reads the item's parameters, fetches the
    credentials, attaches to or launches a browser, opens a context and a
    page, runs either the custom script or one of the standard operations,
    closes the browser and appends the result to [returnData].  Failures
    inside the [try] block are turned into an error record when the host's
    continue-on-fail switch is on, and are rethrown otherwise.

    Everything the method talks to (the host's [getNodeParameter] and
    [getCredentials], the playwright library, the browser locator, the
    installer, the operation dispatcher and the script runner) is outside
    the method.  The model keeps them outside as well: every such call is a
    constructor of [Call], answered by the environment, which owns a state
    of its own and may answer with a value or with a thrown error.  The
    method itself is written in a small state-and-exception monad whose
    state carries the state of the outside world, the log of everything
    the method did, and the [returnData] array.

    Line numbers in the comments refer to the source file of the node. *)

From Stdlib Require Import ZArith String List Lia.
From stdpp Require Import base option list strings gmap.

Open Scope string_scope.
Open Scope list_scope.
Open Scope Z_scope.
Open Scope nat_scope.

(** ** Data *)

(** JSON values as they sit in the [json] field of an item. *)
#[local] Unset Elimination Schemes.
Inductive Json : Type :=
| JNull
| JBool (b : bool)
| JNum (n : Z)
| JStr (s : string)
| JArr (l : list Json)
| JObj (l : list (string * Json)).
#[local] Set Elimination Schemes.

Record IBinaryData : Type := mkBinary {
  data : string;
  mimeType : string;
  fileName : option string
}.

(** [INodeExecutionData]: the structured fields and the optional binary
    attachments of one item. *)
Record INodeExecutionData : Type := mkItem {
  json : gmap string Json;
  binary : option (gmap string IBinaryData)
}.

(** A thrown JavaScript [Error]; the method only ever reads [message]. *)
Record JsError : Type := mkError { message : string }.

(** Outcome of a call: a value, or an exception. *)
Inductive Result (A : Type) : Type :=
| Ok (a : A)
| Throw (e : JsError).
Arguments Ok {A} a.
Arguments Throw {A} e.

(** Handles given out by the playwright library. *)
Definition Browser := nat.
Definition Context := nat.
Definition Page := nat.

(** [IBrowserOptions]: the collection parameter [browserOptions]; both
    members are optional. *)
Record IBrowserOptions : Type := mkBrowserOptions {
  headless : option bool;
  slowMo : option Z
}.

(** The decrypted credentials; a member that is not set reads as
    [undefined], here [None]. *)
Record Credentials : Type := mkCredentials {
  connectionType : option string;
  executablePath : option string;
  endpointUrl : option string
}.

(** The option objects built for [launch] and for [connectOverCDP]. *)
Record LaunchOptions : Type := mkLaunchOptions {
  launch_headless : bool;
  launch_slowMo : Z;
  launch_executablePath : string
}.

Record ConnectOptions : Type := mkConnectOptions {
  connect_slowMo : Z
}.

(** ** Calls that leave the method *)

Inductive Call : Type -> Type :=
| RequireModule (name : string) : Call unit
| GetNodeParameter_operation (i : nat) : Call string
| GetNodeParameter_browser (i : nat) : Call string
| GetNodeParameter_browserOptions (i : nat) : Call IBrowserOptions
| GetNodeParameter_url (i : nat) : Call string
| GetCredentials (name : string) : Call Credentials
| ConnectOverCDP (endpoint : option string) (o : ConnectOptions) : Call Browser
| GetBrowserExecutablePath (browserType browsersPath : string) : Call string
| InstallBrowser (browserType : string) : Call unit
| Launch (browserType : string) (o : LaunchOptions) : Call Browser
| NewContext (b : Browser) : Call Context
| NewPage (c : Context) : Call Page
| RunCustomScript (i : nat) (b : Browser) (p : Page)
    : Call (list INodeExecutionData)
| Goto (p : Page) (url : string) : Call unit
| HandleOperation (operation : string) (p : Page) (i : nat)
    : Call INodeExecutionData
| Close (b : Browser) : Call unit.

(** What the method writes to the console. *)
Inductive ConsoleMsg : Type :=
| LogConnecting (endpoint : option string)
| LogLaunching (path : string)
| LogProcessing (n total : nat)
| ErrBrowserPath (msg : string)
| ErrBrowserLaunch (error : JsError).

(** The log: every call with its outcome, every console line, and every
    [returnData.push]. *)
Inductive Event : Type :=
| Ev {R : Type} (c : Call R) (r : Result R)
| Console (m : ConsoleMsg)
| Push (l : list INodeExecutionData).

(** The host and the libraries around the method.  [respond] answers a
    call from the current state of the outside world and moves that state
    on; [items] is [this.getInputData()], [continueOnFail] is
    [this.continueOnFail()], [platform] is [os.platform()] and
    [browsersPath] is [join(__dirname, '..', 'browsers')]. *)
Record Environment (W : Type) : Type := mkEnvironment {
  respond : forall R : Type, Call R -> W -> Result R * W;
  items : list INodeExecutionData;
  continueOnFail : bool;
  platform : string;
  browsersPath : string
}.
Arguments respond {W} _ {R} _ _.
Arguments items {W} _.
Arguments continueOnFail {W} _.
Arguments platform {W} _.
Arguments browsersPath {W} _.

(** ** The monad *)

Record State (W : Type) : Type := mkState {
  world : W;
  trace : list Event;
  returnData : list INodeExecutionData
}.
Arguments mkState {W} _ _ _.
Arguments world {W} _.
Arguments trace {W} _.
Arguments returnData {W} _.

Definition M (W A : Type) : Type := State W -> Result A * State W.

Definition ret {W A} (a : A) : M W A := fun st => (Ok a, st).

Definition throw {W A} (e : JsError) : M W A := fun st => (Throw e, st).

Definition bind {W A B} (m : M W A) (k : A -> M W B) : M W B :=
  fun st =>
    match m st with
    | (Ok a, st') => k a st'
    | (Throw e, st') => (Throw e, st')
    end.

Definition try_catch {W A} (m : M W A) (handler : JsError -> M W A) : M W A :=
  fun st =>
    match m st with
    | (Ok a, st') => (Ok a, st')
    | (Throw e, st') => handler e st'
    end.

Notation "x <- m ;; k" := (bind m (fun x => k))
  (at level 100, m at next level, right associativity).
Notation "m ;;; k" := (bind m (fun _ => k))
  (at level 100, right associativity).

Definition record {W} (ev : Event) (st : State W) : State W :=
  mkState (world st) (trace st ++ [ev]) (returnData st).

(** A call to the outside: ask the environment, log call and outcome. *)
Definition call {W R} (env : Environment W) (c : Call R) : M W R :=
  fun st =>
    let (r, w') := respond env c (world st) in
    (r, mkState w' (trace st ++ [Ev c r]) (returnData st)).

Definition console {W} (m : ConsoleMsg) : M W unit :=
  fun st => (Ok tt, record (Console m) st).

(** [returnData.push(...l)] *)
Definition push {W} (l : list INodeExecutionData) : M W unit :=
  fun st =>
    (Ok tt, mkState (world st) (trace st ++ [Push l]) (returnData st ++ l)).

(** ** The method *)

Definition dquote : string := String (Ascii.ascii_of_nat 34) EmptyString.

(** The message of the error thrown at the non-Chromium connect guard
    (line 345). *)
Definition cdpUnsupportedMessage : string :=
  "Connect Over CDP is only supported for Chromium-based browsers. Please select "
  +:+ dquote +:+ "Chromium" +:+ dquote +:+ " as the Browser.".

Definition UnsupportedConfiguration : JsError := mkError cdpUnsupportedMessage.

(** [browserOptions.slowMo || 0] (lines 350 and 370); [slowMo] is a number
    of milliseconds, taken as an integer. *)
Definition slowMo_or_0 (o : IBrowserOptions) : Z :=
  match slowMo o with
  | Some n => if Z.eqb n 0 then 0%Z else n
  | None => 0%Z
  end.

(** [browserOptions.headless !== false] (line 369) *)
Definition headless_not_false (o : IBrowserOptions) : bool :=
  match headless o with
  | Some false => false
  | _ => true
  end.

(** The record pushed by the [catch] block when continue-on-fail is on
    (lines 398-404):
    [{ json: { error: error.message, browserType, os: platform() } }]. *)
Definition errorRecord (error : JsError) (browserType os : string)
  : INodeExecutionData :=
  mkItem
    (<["error" := JStr (message error)]>
       (<["browserType" := JStr browserType]>
          (<["os" := JStr os]> ∅)))
    None.

Arguments cdpUnsupportedMessage : simpl never.
Arguments UnsupportedConfiguration : simpl never.
Arguments slowMo_or_0 : simpl never.
Arguments headless_not_false : simpl never.
Arguments errorRecord : simpl never.

Section Node.
Context {W : Type} (env : Environment W).

(** The locator with its install-and-retry fallback (lines 357-363): the
    inner [try] holds the first lookup, the inner [catch] logs, installs
    and looks up again. *)
Definition locateBrowser (browserType : string) : M W string :=
  try_catch
    (call env (GetBrowserExecutablePath browserType (browsersPath env)))
    (fun error =>
       console (ErrBrowserPath (message error)) ;;;
       call env (InstallBrowser browserType) ;;;
       call env (GetBrowserExecutablePath browserType (browsersPath env))).

(** [executablePath = credentials.executablePath;
     if (!executablePath) { ... }] (lines 354-364): [undefined] and the
    empty string are the values that count as false. *)
Definition resolveExecutablePath (credentials : Credentials)
    (browserType : string) : M W string :=
  match executablePath credentials with
  | Some p => if bool_decide (p = "") then locateBrowser browserType
              else ret p
  | None => locateBrowser browserType
  end.

(** The [else] branch of the test on [connectionType] (lines 352-373). *)
Definition launchBrowser (credentials : Credentials)
    (browserType : string) (browserOptions : IBrowserOptions)
    : M W Browser :=
  path <- resolveExecutablePath credentials browserType ;;
  console (LogLaunching path) ;;;
  call env (Launch browserType
              (mkLaunchOptions (headless_not_false browserOptions)
                               (slowMo_or_0 browserOptions)
                               path)).

(** The [then] branch of the test on [connectionType] (lines 341-351). *)
Definition connectBrowser (credentials : Credentials)
    (browserType : string) (browserOptions : IBrowserOptions)
    : M W Browser :=
  let endpoint := endpointUrl credentials in
  if bool_decide (browserType <> "chromium") then
    throw UnsupportedConfiguration
  else
    console (LogConnecting endpoint) ;;;
    call env (ConnectOverCDP endpoint
                (mkConnectOptions (slowMo_or_0 browserOptions))).

(** [if (connectionType === 'connect') { ... } else { ... }]
    (lines 341-373). *)
Definition acquireBrowser (credentials : Credentials)
    (browserType : string) (browserOptions : IBrowserOptions)
    : M W Browser :=
  if bool_decide (connectionType credentials = Some "connect") then
    connectBrowser credentials browserType browserOptions
  else
    launchBrowser credentials browserType browserOptions.

(** From [let result] to the end of the [try] block (lines 378-394). *)
Definition runOperation (i : nat) (operation : string)
    (browser : Browser) (page : Page) : M W unit :=
  if bool_decide (operation = "runCustomScript") then
    console (LogProcessing (i + 1) (length (items env))) ;;;
    result <- call env (RunCustomScript i browser page) ;;
    call env (Close browser) ;;;
    push result
  else
    url <- call env (GetNodeParameter_url i) ;;
    call env (Goto page url) ;;;
    result <- call env (HandleOperation operation page i) ;;
    call env (Close browser) ;;;
    push [result].

(** The [try] block (lines 333-394). *)
Definition tryBlock (i : nat) (operation browserType : string)
    (browserOptions : IBrowserOptions) : M W unit :=
  credentials <- call env (GetCredentials "playwrightCredentials") ;;
  browser <- acquireBrowser credentials browserType browserOptions ;;
  context <- call env (NewContext browser) ;;
  page <- call env (NewPage context) ;;
  runOperation i operation browser page.

(** The [catch] block (lines 395-408); [continue] goes on with the next
    turn of the loop, as does falling off the end of the body. *)
Definition catchBlock (browserType : string) (error : JsError) : M W unit :=
  console (ErrBrowserLaunch error) ;;;
  if continueOnFail env then
    push [errorRecord error browserType (platform env)]
  else
    throw error.

(** The three parameter reads at the head of the loop body
    (lines 329-331), which sit in front of the [try]. *)
Definition readParameters (i : nat)
  : M W (string * string * IBrowserOptions) :=
  operation <- call env (GetNodeParameter_operation i) ;;
  browserType <- call env (GetNodeParameter_browser i) ;;
  browserOptions <- call env (GetNodeParameter_browserOptions i) ;;
  ret (operation, browserType, browserOptions).

(** The [try] statement of one item (lines 333-408). *)
Definition guarded (i : nat) (operation browserType : string)
    (browserOptions : IBrowserOptions) : M W unit :=
  try_catch (tryBlock i operation browserType browserOptions)
            (catchBlock browserType).

(** One turn of the [for] loop (lines 329-408). *)
Definition iteration (i : nat) : M W unit :=
  params <- readParameters i ;;
  let '(operation, browserType, browserOptions) := params in
  guarded i operation browserType browserOptions.

(** [for (let i = ...; i < items.length; i++)], with [remaining] the
    number of turns still to take. *)
Fixpoint loop (remaining i : nat) : M W unit :=
  match remaining with
  | O => ret tt
  | S k => iteration i ;;; loop k (S i)
  end.

(** The method (lines 320-412): [returnData] starts empty, the library
    is loaded, the loop runs, and the array is returned as the only
    output branch. *)
Definition execute : M W (list (list INodeExecutionData)) :=
  fun st0 =>
    let st := mkState (world st0) (trace st0) [] in
    (call env (RequireModule "playwright") ;;;
     loop (length (items env)) 0 ;;;
     (fun st' => (Ok [returnData st'], st'))) st.

End Node.

(** ** Reading the log *)

(** The kind of an event, forgetting its arguments and its outcome. *)
Inductive Kind : Type :=
| KRequire | KParameter | KCredentials | KConnect | KLocate | KInstall
| KLaunch | KNewContext | KNewPage | KScript | KGoto | KHandle | KClose
| KConsole | KPush.

Global Instance Kind_eq_dec : EqDecision Kind.
Proof. solve_decision. Defined.

Definition kind_of_call {R} (c : Call R) : Kind :=
  match c with
  | RequireModule _ => KRequire
  | GetNodeParameter_operation _ => KParameter
  | GetNodeParameter_browser _ => KParameter
  | GetNodeParameter_browserOptions _ => KParameter
  | GetNodeParameter_url _ => KParameter
  | GetCredentials _ => KCredentials
  | ConnectOverCDP _ _ => KConnect
  | GetBrowserExecutablePath _ _ => KLocate
  | InstallBrowser _ => KInstall
  | Launch _ _ => KLaunch
  | NewContext _ => KNewContext
  | NewPage _ => KNewPage
  | RunCustomScript _ _ _ => KScript
  | Goto _ _ => KGoto
  | HandleOperation _ _ _ => KHandle
  | Close _ => KClose
  end.

Definition kind (ev : Event) : Kind :=
  match ev with
  | Ev c _ => kind_of_call c
  | Console _ => KConsole
  | Push _ => KPush
  end.

(** How often an event of kind [k] occurs in a log. *)
Definition count (k : Kind) (t : list Event) : nat :=
  length (filter (fun ev => kind ev = k) t).

(** No event of kind [k] occurs in a log. *)
Definition never (k : Kind) (t : list Event) : Prop :=
  Forall (fun ev => kind ev <> k) t.

(** The call came back with a value. *)
Definition returned (ev : Event) : bool :=
  match ev with
  | Ev _ (Ok _) => true
  | _ => false
  end.

(** The event is the script runner or the dispatcher coming back with its
    result. *)
Definition completes_operation (ev : Event) : bool :=
  match kind ev with
  | KScript | KHandle => returned ev
  | _ => false
  end.

(** The event is [page.goto] coming back. *)
Definition navigated (ev : Event) : bool :=
  match kind ev with
  | KGoto => returned ev
  | _ => false
  end.

(** Every event of kind [k] in the log comes directly after an event that
    satisfies [before]; [ok] says whether the event in front of the log
    did. *)
Fixpoint only_after (k : Kind) (before : Event -> bool) (ok : bool)
    (t : list Event) : bool :=
  match t with
  | [] => true
  | ev :: t' =>
      (if bool_decide (kind ev = k) then ok else true)
      && only_after k before (before ev) t'
  end.

(** The kind of the call that threw, when the log ends with a call that
    threw. *)
Definition failing_call (t : list Event) : option Kind :=
  match last t with
  | Some (Ev c (Throw _)) => Some (kind_of_call c)
  | _ => None
  end.

(** The [console.error] at the head of the [catch] block: its presence in
    a log says that an item's [try] block has failed. *)
Definition caught (ev : Event) : bool :=
  match ev with
  | Console (ErrBrowserLaunch _) => true
  | _ => false
  end.

(** The event hands out the browser handle [b]. *)
Definition acquires (b : Browser) (ev : Event) : Prop :=
  (exists browserType o, ev = Ev (Launch browserType o) (Ok b))
  \/ (exists endpoint o, ev = Ev (ConnectOverCDP endpoint o) (Ok b)).

(** Every call on a browser, a context or a page goes to [b], [c], [p]. *)
Definition on_handles (b : Browser) (c : Context) (p : Page) (ev : Event)
  : Prop :=
  match ev with
  | Ev call _ =>
      match call with
      | NewContext b' => b' = b
      | NewPage c' => c' = c
      | RunCustomScript _ b' p' => b' = b /\ p' = p
      | Goto p' _ => p' = p
      | HandleOperation _ p' _ => p' = p
      | Close b' => b' = b
      | _ => True
      end
  | _ => True
  end.

(** The events a computation adds to the log when it is run from [st]. *)
Definition log_of {W A} (m : M W A) (st : State W) : list Event :=
  drop (length (trace st)) (trace (snd (m st))).

(** The items a computation appends to [returnData] when run from [st]. *)
Definition output_of {W A} (m : M W A) (st : State W)
  : list INodeExecutionData :=
  drop (length (returnData st)) (returnData (snd (m st))).

(** A computation leaves what is in the log and in [returnData] in place
    and writes behind it. *)
Definition extends {W A} (m : M W A) : Prop :=
  forall st,
    (exists t, trace (snd (m st)) = trace st ++ t)
    /\ (exists l, returnData (snd (m st)) = returnData st ++ l).

Create HintDb extends.

(** The options of a [launch] or [connectOverCDP] event are the ones the
    item's [browserOptions] ask for: [headless] unless it is [false], and
    [slowMo], or 0 when it is not set. *)
Definition options_from (browserType : string) (o : IBrowserOptions)
    (ev : Event) : Prop :=
  match ev with
  | Ev c _ =>
      match c with
      | Launch browserType' lo =>
          browserType' = browserType
          /\ launch_headless lo = headless_not_false o
          /\ launch_slowMo lo = slowMo_or_0 o
      | ConnectOverCDP _ co => connect_slowMo co = slowMo_or_0 o
      | _ => True
      end
  | _ => True
  end.

(** ** The log of a whole run *)

(** The items pushed in a log, in the order of the pushes. *)
Definition emitted (t : list Event) : list INodeExecutionData :=
  flat_map (fun ev => match ev with Push l => l | _ => [] end) t.

(** How many events of a log satisfy [f]. *)
Definition tally (f : Event -> bool) (t : list Event) : nat :=
  length (filter (fun ev => f ev = true) t).

(** The event is [launch] or [connectOverCDP] handing out a browser. *)
Definition opened (ev : Event) : bool :=
  match kind ev with
  | KLaunch | KConnect => returned ev
  | _ => false
  end.

(** No [catch] block has run in the log. *)
Definition clean (t : list Event) : bool :=
  forallb (fun ev => negb (caught ev)) t.

(** The host can evaluate the three leading parameters of every item,
    whatever has happened before. *)
Definition parameters_readable {W} (env : Environment W) : Prop :=
  forall i w,
    (exists v w', respond env (GetNodeParameter_operation i) w = (Ok v, w'))
    /\ (exists v w', respond env (GetNodeParameter_browser i) w = (Ok v, w'))
    /\ (exists v w',
          respond env (GetNodeParameter_browserOptions i) w = (Ok v, w')).

(** No item asks for [runCustomScript]. *)
Definition no_scripts {W} (env : Environment W) : Prop :=
  forall i w v w',
    respond env (GetNodeParameter_operation i) w = (Ok v, w') ->
    v <> "runCustomScript".

(** A computation only appends to the log, and changes [returnData] by
    exactly what it pushes. *)
Definition tracked {W A} (m : M W A) : Prop :=
  forall st,
    exists t,
      trace (snd (m st)) = trace st ++ t
      /\ returnData (snd (m st)) = returnData st ++ emitted t.

Create HintDb tracked.

(** The handles an item holds at some point of its log. *)
Record Handles : Type := mkHandles {
  h_browser : option Browser;
  h_context : option Context;
  h_page : option Page
}.

Definition no_handles : Handles := mkHandles None None None.

(** A call on a browser, a context or a page goes to the handle held. *)
Definition uses_held (h : Handles) (ev : Event) : Prop :=
  match ev with
  | Ev call _ =>
      match call with
      | NewContext b => h_browser h = Some b
      | NewPage c => h_context h = Some c
      | RunCustomScript _ b p => h_browser h = Some b /\ h_page h = Some p
      | Goto p _ => h_page h = Some p
      | HandleOperation _ p _ => h_page h = Some p
      | Close b => h_browser h = Some b
      | _ => True
      end
  | _ => True
  end.

(** The handles held once the event has happened. *)
Definition hand_out (h : Handles) (ev : Event) : Handles :=
  match ev with
  | Ev call (Ok v) =>
      match call in Call R return R -> Handles with
      | Launch _ _ => fun b => mkHandles (Some b) (h_context h) (h_page h)
      | ConnectOverCDP _ _ =>
          fun b => mkHandles (Some b) (h_context h) (h_page h)
      | NewContext _ => fun c => mkHandles (h_browser h) (Some c) (h_page h)
      | NewPage _ => fun p => mkHandles (h_browser h) (h_context h) (Some p)
      | _ => fun _ => h
      end v
  | _ => h
  end.

(** Every call of the log on a handle goes to a handle that the log
    itself, or [h] in front of it, has handed out. *)
Fixpoint scoped (h : Handles) (t : list Event) : Prop :=
  match t with
  | [] => True
  | ev :: t' => uses_held h ev /\ scoped (hand_out h ev) t'
  end.

(** ** The parameter forms

    The [properties] of the node description and of the credential type,
    with the members the host acts on: name, type, default, options, the
    [displayOptions.show] conditions and the two flags.  Display names,
    descriptions and placeholders are left out. *)

Inductive PropertyType : Type :=
| t_options | t_string | t_notice | t_collection | t_boolean | t_number.

Inductive PropertyOption : Type :=
| Choice (name value : string)
| Member (name : string) (type : PropertyType) (default : Json).

Record INodeProperties : Type := mkProperty {
  p_name : string;
  p_type : PropertyType;
  p_default : Json;
  p_options : list PropertyOption;
  p_show : list (string * list string);
  p_required : bool;
  p_noDataExpression : bool
}.

(** The default of the [scriptCode] parameter (lines 114-137). *)
Definition defaultScriptCode : string :=
  "// Navigate to a URL
await $page.goto('https://example.com');

// Get page title
const title = await $page.title();
console.log('Page title:', title);

// Take a screenshot
const screenshot = await $page.screenshot({ type: 'png' });

// Return results
return [{
    json: { 
        title,
        url: $page.url()
    },
    binary: {
        screenshot: await $helpers.prepareBinaryData(
            Buffer.from(screenshot),
            'screenshot.png',
            'image/png'
        )
    }
}];".

(** [Playwright.description.properties] (lines 42-317). *)
Definition nodeProperties : list INodeProperties :=
  [ mkProperty "operation" t_options (JStr "navigate")
      [Choice "Click Element" "clickElement";
       Choice "Fill Form" "fillForm";
       Choice "Get Text" "getText";
       Choice "Navigate" "navigate";
       Choice "Run Custom Script" "runCustomScript";
       Choice "Take Screenshot" "takeScreenshot"]
      [] false true;
    mkProperty "url" t_string (JStr "") []
      [("operation",
        ["navigate"; "takeScreenshot"; "getText"; "clickElement";
         "fillForm"])]
      true false;
    mkProperty "scriptCode" t_string (JStr defaultScriptCode) []
      [("operation", ["runCustomScript"])] true true;
    mkProperty "notice" t_notice (JStr "") []
      [("operation", ["runCustomScript"])] false false;
    mkProperty "dataPropertyName" t_string (JStr "screenshot") []
      [("operation", ["takeScreenshot"])] true false;
    mkProperty "selectorType" t_options (JStr "css")
      [Choice "CSS Selector" "css"; Choice "XPath" "xpath"]
      [("operation", ["getText"; "clickElement"; "fillForm"])] false false;
    mkProperty "selector" t_string (JStr "") []
      [("operation", ["getText"; "clickElement"; "fillForm"]);
       ("selectorType", ["css"])]
      true false;
    mkProperty "xpath" t_string (JStr "") []
      [("operation", ["getText"; "clickElement"; "fillForm"]);
       ("selectorType", ["xpath"])]
      true false;
    mkProperty "value" t_string (JStr "") []
      [("operation", ["fillForm"])] true false;
    mkProperty "browser" t_options (JStr "chromium")
      [Choice "Chromium" "chromium"; Choice "Firefox" "firefox";
       Choice "Webkit" "webkit"]
      [] false false;
    mkProperty "browserOptions" t_collection (JObj [])
      [Member "headless" t_boolean (JBool true);
       Member "slowMo" t_number (JNum 0)]
      [] false false;
    mkProperty "screenshotOptions" t_collection (JObj [])
      [Member "fullPage" t_boolean (JBool false);
       Member "path" t_string (JStr "")]
      [("operation", ["takeScreenshot"])] false false ].

(** [PlaywrightCredentials.properties]
    (PlaywrightCredentials.credentials.ts, lines 10-57). *)
Definition credentialProperties : list INodeProperties :=
  [ mkProperty "connectionType" t_options (JStr "launch")
      [Choice "Launch Browser" "launch"; Choice "Connect Over CDP" "connect"]
      [] false false;
    mkProperty "executablePath" t_string (JStr "") []
      [("connectionType", ["launch"])] false false;
    mkProperty "endpointUrl" t_string (JStr "") []
      [("connectionType", ["connect"])] false false ].

(** The values an [options] property offers. *)
Definition choices (p : INodeProperties) : list string :=
  flat_map (fun o => match o with
                     | Choice _ v => [v]
                     | Member _ _ _ => []
                     end) (p_options p).

Definition find_property (props : list INodeProperties) (name : string)
  : option INodeProperties :=
  find (fun p => bool_decide (p_name p = name)) props.

(** The host's display rule: a property is shown when every parameter
    named in its [show] conditions currently has one of the values listed
    for it. *)
Definition displayed (values : string -> string) (p : INodeProperties)
  : bool :=
  forallb (fun cond => bool_decide (values (fst cond) ∈ snd cond)) (p_show p).

(** The member of the credentials that a field of the form fills. *)
Definition credential_field (name : string) (c : Credentials)
  : option string :=
  if bool_decide (name = "connectionType") then connectionType c
  else if bool_decide (name = "executablePath") then executablePath c
  else if bool_decide (name = "endpointUrl") then endpointUrl c
  else None.

(** ** A reference environment

    A small, fully concrete outside world on which the method can be run:
    the host answers parameter reads from a table, the locator finds the
    browser only once it is installed, the library hands out consecutive
    handles.  It serves the worked examples further down. *)

Module Demo.

Record World : Type := mkWorld {
  installed : bool;
  next : nat
}.

Record Scenario : Type := mkScenario {
  s_operation : nat -> Result string;
  s_browser : nat -> Result string;
  s_browserOptions : nat -> Result IBrowserOptions;
  s_url : nat -> Result string;
  s_credentials : Result Credentials;
  s_installer : Result unit;
  s_script : nat -> Result (list INodeExecutionData);
  s_handle : nat -> Result INodeExecutionData;
  s_goto : string -> Result unit;
  s_close : Result unit
}.

Definition fresh {A} (f : nat -> A) (w : World) : Result A * World :=
  (Ok (f (next w)), mkWorld (installed w) (S (next w))).

Definition answer (s : Scenario) (R : Type) (c : Call R) (w : World)
  : Result R * World :=
  match c in Call R return Result R * World with
  | RequireModule _ => (Ok tt, w)
  | GetNodeParameter_operation i => (s_operation s i, w)
  | GetNodeParameter_browser i => (s_browser s i, w)
  | GetNodeParameter_browserOptions i => (s_browserOptions s i, w)
  | GetNodeParameter_url i => (s_url s i, w)
  | GetCredentials _ => (s_credentials s, w)
  | ConnectOverCDP _ _ => fresh (fun n => n) w
  | GetBrowserExecutablePath browserType root =>
      if installed w then (Ok (root +:+ "/" +:+ browserType), w)
      else (Throw (mkError "Browser executable not found"), w)
  | InstallBrowser _ =>
      match s_installer s with
      | Ok _ => (Ok tt, mkWorld true (next w))
      | Throw e => (Throw e, w)
      end
  | Launch _ _ => fresh (fun n => n) w
  | NewContext _ => fresh (fun n => n) w
  | NewPage _ => fresh (fun n => n) w
  | RunCustomScript i _ _ => (s_script s i, w)
  | Goto _ url => (s_goto s url, w)
  | HandleOperation _ _ i => (s_handle s i, w)
  | Close _ => (s_close s, w)
  end.

Definition environment (s : Scenario) (n : nat) (cof : bool)
  : Environment World :=
  mkEnvironment World (answer s)
    (repeat (mkItem ∅ None) n) cof "linux" "/opt/node/browsers".

Definition start (inst : bool) : State World :=
  mkState (mkWorld inst 0) [] [].

Definition page_item (title : string) : INodeExecutionData :=
  mkItem (<["title" := JStr title]> ∅) None.

(** Launch mode, Firefox, nothing installed, every item navigates. *)
Definition plain : Scenario :=
  mkScenario
    (fun _ => Ok "navigate")
    (fun _ => Ok "firefox")
    (fun _ => Ok (mkBrowserOptions None None))
    (fun _ => Ok "https://example.com")
    (Ok (mkCredentials (Some "launch") (Some "") None))
    (Ok tt)
    (fun _ => Ok [])
    (fun _ => Ok (page_item "Example Domain"))
    (fun _ => Ok tt)
    (Ok tt).

Definition no_options : IBrowserOptions := mkBrowserOptions None None.

Definition with_credentials (c : Credentials) (s : Scenario) : Scenario :=
  mkScenario (s_operation s) (s_browser s) (s_browserOptions s) (s_url s)
    (Ok c) (s_installer s) (s_script s) (s_handle s) (s_goto s) (s_close s).

Definition with_operation (f : nat -> Result string) (s : Scenario)
  : Scenario :=
  mkScenario f (s_browser s) (s_browserOptions s) (s_url s)
    (s_credentials s) (s_installer s) (s_script s) (s_handle s) (s_goto s)
    (s_close s).

Definition with_browser (f : nat -> Result string) (s : Scenario)
  : Scenario :=
  mkScenario (s_operation s) f (s_browserOptions s) (s_url s)
    (s_credentials s) (s_installer s) (s_script s) (s_handle s) (s_goto s)
    (s_close s).

Definition with_browserOptions (o : IBrowserOptions) (s : Scenario)
  : Scenario :=
  mkScenario (s_operation s) (s_browser s) (fun _ => Ok o) (s_url s)
    (s_credentials s) (s_installer s) (s_script s) (s_handle s) (s_goto s)
    (s_close s).

Definition with_script (f : nat -> Result (list INodeExecutionData))
    (s : Scenario) : Scenario :=
  mkScenario (s_operation s) (s_browser s) (s_browserOptions s) (s_url s)
    (s_credentials s) (s_installer s) f (s_handle s) (s_goto s) (s_close s).

Definition with_goto (f : string -> Result unit) (s : Scenario) : Scenario :=
  mkScenario (s_operation s) (s_browser s) (s_browserOptions s) (s_url s)
    (s_credentials s) (s_installer s) (s_script s) (s_handle s) f
    (s_close s).

(** Connect mode with Firefox selected as the browser. *)
Definition cdp_credentials : Credentials :=
  mkCredentials (Some "connect") None (Some "http://localhost:9222").

Definition connect_firefox : Scenario := with_credentials cdp_credentials plain.

(** Connect mode with Chromium, running slowed down by 250 ms. *)
Definition slow_options : IBrowserOptions :=
  mkBrowserOptions (Some false) (Some 250%Z).

Definition connect_chromium : Scenario :=
  with_browserOptions slow_options
    (with_browser (fun _ => Ok "chromium")
       (with_credentials cdp_credentials plain)).

(** The host fails to evaluate the [browser] parameter of item 0. *)
Definition expression_error : JsError :=
  mkError "Could not evaluate the expression of parameter browser".

Definition bad_parameter : Scenario :=
  with_browser (fun _ => Throw expression_error) plain.

(** Navigation fails for every item. *)
Definition dns_error : JsError :=
  mkError "page.goto: net::ERR_NAME_NOT_RESOLVED".

Definition unreachable : Scenario := with_goto (fun _ => Throw dns_error) plain.

(** Every item runs a script that returns two items. *)
Definition two_items : list INodeExecutionData :=
  [page_item "first"; page_item "second"].

Definition scripted : Scenario :=
  with_script (fun _ => Ok two_items)
    (with_operation (fun _ => Ok "runCustomScript") plain).

(** Item 0 runs a script that returns nothing; the items behind it
    navigate, and navigation fails. *)
Definition silent_then_unreachable : Scenario :=
  with_operation
    (fun i => match i with
              | O => Ok "runCustomScript"
              | S _ => Ok "navigate"
              end)
    unreachable.

(** A connection type the credential form does not offer, and an
    explicit executable. *)
Definition odd_credentials : Credentials :=
  mkCredentials (Some "Connect") (Some "/usr/bin/firefox")
    (Some "http://localhost:9222").

Definition odd_mode : Scenario := with_credentials odd_credentials plain.

Definition with_installer (r : Result unit) (s : Scenario) : Scenario :=
  mkScenario (s_operation s) (s_browser s) (s_browserOptions s) (s_url s)
    (s_credentials s) r (s_script s) (s_handle s) (s_goto s) (s_close s).

Definition with_close (r : Result unit) (s : Scenario) : Scenario :=
  mkScenario (s_operation s) (s_browser s) (s_browserOptions s) (s_url s)
    (s_credentials s) (s_installer s) (s_script s) (s_handle s) (s_goto s)
    r.

(** The download of the browser fails. *)
Definition download_error : JsError :=
  mkError "Failed to download the browser".

Definition install_fails : Scenario :=
  with_installer (Throw download_error) plain.

(** The browser has gone away by the time it is closed. *)
Definition closed_error : JsError :=
  mkError "browser.close: Target closed".

Definition close_fails : Scenario := with_close (Throw closed_error) plain.

(** Launch mode with an explicit executable. *)
Definition chrome_credentials : Credentials :=
  mkCredentials (Some "launch") (Some "/usr/bin/google-chrome-stable") None.

(** The reference world without the playwright library. *)
Definition module_error : JsError :=
  mkError "Cannot find module 'playwright'".

Definition answer_without_library (s : Scenario) (R : Type) (c : Call R)
    (w : World) : Result R * World :=
  match c in Call R0 return Result R0 * World with
  | RequireModule _ => (Throw module_error, w)
  | c0 => answer s _ c0 w
  end.

Definition environment_without_library (s : Scenario) (n : nat)
    (cof : bool) : Environment World :=
  mkEnvironment World (answer_without_library s)
    (repeat (mkItem ∅ None) n) cof "linux" "/opt/node/browsers".

(** [returnData] holding an item of an earlier run. *)
Definition stale_start : State World :=
  mkState (mkWorld true 0) [] [page_item "stale"].

Definition explicit_chrome : Scenario :=
  with_browser (fun _ => Ok "chromium")
    (with_credentials chrome_credentials plain).

End Demo.

(** ** Running the method symbolically

    [exec] unfolds the method and splits on the outcome of every call and
    on every test, one path of the method per goal. *)

Ltac exec_unfold :=
  unfold iteration, readParameters, guarded, tryBlock, runOperation, acquireBrowser, connectBrowser,
    launchBrowser, resolveExecutablePath, locateBrowser, catchBlock,
    bind, try_catch, call, console, push, throw, ret, record;
  simpl.

Ltac exec_step :=
  match goal with
  | |- context [respond ?e ?c ?w] =>
      destruct (respond e c w) as [[?|?] ?] eqn:?; simpl
  | |- context [bool_decide ?P] =>
      destruct (bool_decide_reflect P); simpl
  | |- context [executablePath ?c] =>
      destruct (executablePath c) eqn:?; simpl
  | |- context [continueOnFail ?e] =>
      destruct (continueOnFail e) eqn:?; simpl
  end.

Ltac exec := exec_unfold; repeat exec_step; rewrite <- ?app_assoc; simpl.

Ltac exec_success H :=
  unfold log_of; rewrite ?H; cbn [snd]; revert H; exec; intros H;
  try discriminate H;
  injection H as <-; simpl;
  repeat match goal with u : unit |- _ => destruct u end;
  rewrite ?drop_app_length.

Ltac exec_failure H :=
  unfold log_of; rewrite ?H; cbn [snd]; revert H; exec; intros H;
  try discriminate H;
  injection H as <- <-; simpl;
  rewrite ?drop_app_length, ?drop_all.

Ltac solve_In := simpl; repeat first [ left; reflexivity | right ].

Ltac solve_passive :=
  repeat match goal with
         | |- Forall _ [] => constructor
         | |- Forall _ (_ :: _) => constructor; [simpl; tauto|]
         end.

Ltac solve_never :=
  unfold never;
  repeat first [ apply Forall_nil_2 | constructor; [discriminate|] ].

(** A sublist of a log written out in full, matched greedily. *)
Ltac find_sublist :=
  solve [ repeat first
            [ apply sublist_nil | apply sublist_skip | apply sublist_cons ] ].

(** ** Properties of the method *)

Section Properties.
Context {W : Type} (env : Environment W).

Implicit Types (st : State W) (i : nat) (e : JsError).
Implicit Types (operation browserType : string).
Implicit Types (browserOptions : IBrowserOptions) (credentials : Credentials).

(** *** The monad's equations *)

Lemma call_eq {R} (c : Call R) st r w' :
  respond env c (world st) = (r, w') ->
  call env c st = (r, mkState w' (trace st ++ [Ev c r]) (returnData st)).
Proof. intros H. unfold call. rewrite H. reflexivity. Qed.

Lemma call_inv {R} (c : Call R) st r st' :
  call env c st = (r, st') ->
  exists w', respond env c (world st) = (r, w') /\
             st' = mkState w' (trace st ++ [Ev c r]) (returnData st).
Proof.
  unfold call. destruct (respond env c (world st)) as [r0 w0].
  intros H. inversion H. subst. eauto.
Qed.

Lemma bind_ok {A B} (m : M W A) (k : A -> M W B) st a st1 :
  m st = (Ok a, st1) -> bind m k st = k a st1.
Proof. intros H. unfold bind. rewrite H. reflexivity. Qed.

Lemma bind_throw {A B} (m : M W A) (k : A -> M W B) st e st1 :
  m st = (Throw e, st1) -> bind m k st = (Throw e, st1).
Proof. intros H. unfold bind. rewrite H. reflexivity. Qed.

Lemma bind_inv {A B} (m : M W A) (k : A -> M W B) st r st' :
  bind m k st = (r, st') ->
  (exists a st1, m st = (Ok a, st1) /\ k a st1 = (r, st')) \/
  (exists e, m st = (Throw e, st') /\ r = Throw e).
Proof.
  unfold bind. destruct (m st) as [[a|e] st1]; intros H.
  - left. eauto.
  - right. inversion H. subst. eauto.
Qed.

Lemma try_catch_ok {A} (m : M W A) h st a st1 :
  m st = (Ok a, st1) -> try_catch m h st = (Ok a, st1).
Proof. intros H. unfold try_catch. rewrite H. reflexivity. Qed.

Lemma try_catch_throw {A} (m : M W A) h st e st1 :
  m st = (Throw e, st1) -> try_catch m h st = h e st1.
Proof. intros H. unfold try_catch. rewrite H. reflexivity. Qed.

(** *** The connect guard *)

(** C1.  With [connectionType] equal to [connect] and a browser kind
    other than [chromium], the [try] block of every item throws the
    "Connect Over CDP is only supported for Chromium-based browsers"
    error, and the only call it has made by then is the credentials
    lookup: whatever the [catch] block does next, the log of the item
    holds no [connectOverCDP]. *)
Theorem connect_requires_chromium
    i operation browserType browserOptions st credentials w1 :
  respond env (GetCredentials "playwrightCredentials") (world st)
    = (Ok credentials, w1) ->
  connectionType credentials = Some "connect" ->
  browserType <> "chromium" ->
  tryBlock env i operation browserType browserOptions st
    = (Throw UnsupportedConfiguration,
       mkState w1
         (trace st ++ [Ev (GetCredentials "playwrightCredentials")
                          (Ok credentials)])
         (returnData st))
  /\ exists r st2 t,
       guarded env i operation browserType browserOptions st = (r, st2)
       /\ trace st2 = trace st ++ t
       /\ never KConnect t.
Proof.
  intros Hcred Hconn Hkind.
  assert (Htry : tryBlock env i operation browserType browserOptions st
    = (Throw UnsupportedConfiguration,
       mkState w1
         (trace st ++ [Ev (GetCredentials "playwrightCredentials")
                          (Ok credentials)])
         (returnData st))).
  { unfold tryBlock.
    rewrite (bind_ok _ _ _ _ _ (call_eq _ _ _ _ Hcred)).
    apply bind_throw.
    unfold acquireBrowser, connectBrowser.
    rewrite bool_decide_eq_true_2 by exact Hconn.
    rewrite bool_decide_eq_true_2 by exact Hkind.
    reflexivity. }
  split; [exact Htry|].
  unfold guarded. rewrite (try_catch_throw _ _ _ _ _ Htry).
  unfold catchBlock, bind, console, push, throw, record. simpl.
  destruct (continueOnFail env); simpl;
    do 3 eexists; (split; [reflexivity|]);
    rewrite <- ?app_assoc; simpl;
    (split; [reflexivity|]);
    repeat constructor; discriminate.
Qed.

(** *** Resolving the executable path *)

Lemma locateBrowser_found browserType st p w1 :
  respond env (GetBrowserExecutablePath browserType (browsersPath env))
    (world st) = (Ok p, w1) ->
  locateBrowser env browserType st
    = (Ok p,
       mkState w1
         (trace st ++ [Ev (GetBrowserExecutablePath browserType
                             (browsersPath env)) (Ok p)])
         (returnData st)).
Proof.
  intros H. unfold locateBrowser.
  apply try_catch_ok. apply call_eq. exact H.
Qed.

Lemma locateBrowser_retry browserType st e1 w1 w2 r w3 :
  let locate := GetBrowserExecutablePath browserType (browsersPath env) in
  respond env locate (world st) = (Throw e1, w1) ->
  respond env (InstallBrowser browserType) w1 = (Ok tt, w2) ->
  respond env locate w2 = (r, w3) ->
  locateBrowser env browserType st
    = (r,
       mkState w3
         (trace st ++ [Ev locate (Throw e1);
                       Console (ErrBrowserPath (message e1));
                       Ev (InstallBrowser browserType) (Ok tt);
                       Ev locate r])
         (returnData st)).
Proof.
  intros locate H1 H2 H3. unfold locateBrowser.
  rewrite (try_catch_throw _ _ _ _ _ (call_eq _ _ _ _ H1)).
  unfold bind, console, record, call. simpl.
  rewrite H2. simpl. fold locate. rewrite H3.
  rewrite <- !app_assoc. reflexivity.
Qed.

(** An installer that itself throws ends the resolution at once: the
    locator is not asked again. *)
Lemma locateBrowser_install_fails browserType st e1 w1 e2 w2 :
  let locate := GetBrowserExecutablePath browserType (browsersPath env) in
  respond env locate (world st) = (Throw e1, w1) ->
  respond env (InstallBrowser browserType) w1 = (Throw e2, w2) ->
  locateBrowser env browserType st
    = (Throw e2,
       mkState w2
         (trace st ++ [Ev locate (Throw e1);
                       Console (ErrBrowserPath (message e1));
                       Ev (InstallBrowser browserType) (Throw e2)])
         (returnData st)).
Proof.
  intros locate H1 H2. unfold locateBrowser.
  rewrite (try_catch_throw _ _ _ _ _ (call_eq _ _ _ _ H1)).
  unfold bind, console, record, call. simpl.
  rewrite H2. simpl.
  rewrite <- !app_assoc. reflexivity.
Qed.

Lemma resolveExecutablePath_empty credentials browserType :
  executablePath credentials = None \/ executablePath credentials = Some "" ->
  resolveExecutablePath env credentials browserType
    = locateBrowser env browserType.
Proof.
  unfold resolveExecutablePath. intros [-> | ->]; [reflexivity|].
  rewrite bool_decide_eq_true_2 by reflexivity. reflexivity.
Qed.

Lemma launch_mode credentials browserType browserOptions :
  connectionType credentials <> Some "connect" ->
  acquireBrowser env credentials browserType browserOptions
    = launchBrowser env credentials browserType browserOptions.
Proof.
  intros H. unfold acquireBrowser.
  rewrite bool_decide_eq_false_2 by exact H. reflexivity.
Qed.

(** C3, as the method has it.  In launch mode the executable path of
    every item is resolved in this order.  A non-empty [executablePath]
    of the credentials is used as it is, with no call at all.  Otherwise
    the locator is asked; when it answers, that is the path.  When it
    throws, the installer is called exactly once.  When the installer
    returns, the locator is asked a second and last time: its answer is
    the path, and its error is the error of the resolution.  When the
    installer throws, the locator is not asked again and the error of the
    installer is the error of the resolution.  With the error of the
    resolution the browser acquisition and the [try] block of the item
    end without any further call. *)
Theorem executable_path_resolution credentials browserType st :
  let locate := GetBrowserExecutablePath browserType (browsersPath env) in
  let install := InstallBrowser browserType in
  (forall p,
     executablePath credentials = Some p -> p <> "" ->
     resolveExecutablePath env credentials browserType st = (Ok p, st))
  /\ (executablePath credentials = None
      \/ executablePath credentials = Some "" ->
      (forall p w1,
         respond env locate (world st) = (Ok p, w1) ->
         resolveExecutablePath env credentials browserType st
           = (Ok p,
              mkState w1 (trace st ++ [Ev locate (Ok p)]) (returnData st)))
      /\ (forall e1 w1 w2 r w3,
            respond env locate (world st) = (Throw e1, w1) ->
            respond env install w1 = (Ok tt, w2) ->
            respond env locate w2 = (r, w3) ->
            let t := [Ev locate (Throw e1);
                      Console (ErrBrowserPath (message e1));
                      Ev install (Ok tt);
                      Ev locate r] in
            resolveExecutablePath env credentials browserType st
              = (r, mkState w3 (trace st ++ t) (returnData st))
            /\ count KInstall t = 1
            /\ count KLocate t = 2))
  /\ (forall browserOptions e st',
        connectionType credentials <> Some "connect" ->
        resolveExecutablePath env credentials browserType st
          = (Throw e, st') ->
        acquireBrowser env credentials browserType browserOptions st
          = (Throw e, st')
        /\ forall i operation st0,
            call env (GetCredentials "playwrightCredentials") st0
              = (Ok credentials, st) ->
            tryBlock env i operation browserType browserOptions st0
              = (Throw e, st'))
  /\ (executablePath credentials = None
      \/ executablePath credentials = Some "" ->
      forall e1 w1 e2 w2,
        respond env locate (world st) = (Throw e1, w1) ->
        respond env install w1 = (Throw e2, w2) ->
        let t := [Ev locate (Throw e1);
                  Console (ErrBrowserPath (message e1));
                  Ev install (Throw e2)] in
        resolveExecutablePath env credentials browserType st
          = (Throw e2, mkState w2 (trace st ++ t) (returnData st))
        /\ count KInstall t = 1
        /\ count KLocate t = 1).
Proof.
  intros locate install. split; [|split; [|split]].
  - intros p Hp Hne. unfold resolveExecutablePath. rewrite Hp.
    rewrite bool_decide_eq_false_2 by exact Hne. reflexivity.
  - intros Hempty. rewrite (resolveExecutablePath_empty _ _ Hempty). split.
    + intros p w1 H. apply locateBrowser_found. exact H.
    + intros e1 w1 w2 r w3 H1 H2 H3 t. split; [|split].
      * apply (locateBrowser_retry _ _ _ _ _ _ _ H1 H2 H3).
      * reflexivity.
      * reflexivity.
  - intros browserOptions e st' Hmode H.
    assert (Hacq : acquireBrowser env credentials browserType browserOptions
                     st = (Throw e, st')).
    { rewrite (launch_mode _ _ _ Hmode). unfold launchBrowser.
      apply bind_throw. exact H. }
    split; [exact Hacq|].
    intros i operation st0 Hcred. unfold tryBlock.
    rewrite (bind_ok _ _ _ _ _ Hcred). apply bind_throw. exact Hacq.
  - intros Hempty e1 w1 e2 w2 H1 H2 t.
    rewrite (resolveExecutablePath_empty _ _ Hempty). split; [|split].
    + apply (locateBrowser_install_fails _ _ _ _ _ _ H1 H2).
    + reflexivity.
    + reflexivity.
Qed.

(** *** Running the method symbolically *)

Lemma log_of_app {A} (m : M W A) st r w t l :
  m st = (r, mkState w (trace st ++ t) l) -> log_of m st = t.
Proof.
  intros H. unfold log_of. rewrite H. simpl. apply drop_app_length.
Qed.

Lemma output_of_app {A} (m : M W A) st r w t l :
  m st = (r, mkState w t (returnData st ++ l)) -> output_of m st = l.
Proof.
  intros H. unfold output_of. rewrite H. simpl. apply drop_app_length.
Qed.

Lemma slowMo_or_0_set browserOptions n :
  slowMo browserOptions = Some n -> slowMo_or_0 browserOptions = n.
Proof.
  unfold slowMo_or_0. intros ->.
  destruct (Z.eqb_spec n 0); congruence.
Qed.

Lemma slowMo_or_0_unset browserOptions :
  slowMo browserOptions = None -> slowMo_or_0 browserOptions = 0%Z.
Proof. unfold slowMo_or_0. intros ->. reflexivity. Qed.

Lemma headless_not_false_spec browserOptions :
  headless_not_false browserOptions = false
  <-> headless browserOptions = Some false.
Proof.
  unfold headless_not_false.
  destruct (headless browserOptions) as [[|]|]; split; congruence.
Qed.

Lemma tryBlock_options i operation browserType browserOptions st :
  Forall (options_from browserType browserOptions)
    (log_of (tryBlock env i operation browserType browserOptions) st).
Proof.
  unfold log_of. exec; rewrite drop_app_length;
    repeat constructor.
Qed.

(** *** The life of a browser within one item *)

Lemma loop_next k i st st1 :
  iteration env i st = (Ok tt, st1) ->
  loop env (S k) i st = loop env k (S i) st1.
Proof. intros H. simpl. unfold bind. rewrite H. reflexivity. Qed.

(** C8.  When the [try] block of an item comes to its end without an
    exception, its log holds exactly one browser acquisition, one
    [newContext] on the browser acquired, one [newPage] on that context,
    one [close] of that browser and one [push], in this order; every
    call on a handle goes to a handle handed out within this item; the
    [close] and the [push] are the last two events of the block, so the
    browser is closed before the item's output reaches [returnData], and
    the next turn of the loop starts from the state left behind. *)
Theorem browser_closed_before_emit
    i operation browserType browserOptions st st' :
  tryBlock env i operation browserType browserOptions st = (Ok tt, st') ->
  let t := log_of (tryBlock env i operation browserType browserOptions) st in
  (exists acq b c p out,
     acquires b acq
     /\ sublist [acq; Ev (NewContext b) (Ok c); Ev (NewPage c) (Ok p);
                 Ev (Close b) (Ok tt); Push out] t
     /\ (exists t0, t = t0 ++ [Ev (Close b) (Ok tt); Push out])
     /\ Forall (on_handles b c p) t
     /\ returnData st' = returnData st ++ out)
  /\ count KLaunch t + count KConnect t = 1
  /\ count KNewContext t = 1
  /\ count KNewPage t = 1
  /\ count KClose t = 1
  /\ count KPush t = 1
  /\ (forall k st0 st1,
        iteration env i st0 = (Ok tt, st1) ->
        loop env (S k) i st0 = loop env k (S i) st1).
Proof.
  intros H t. subst t.
  pose proof (fun k st0 st1 => loop_next k i st0 st1) as Hloop.
  set (Next := forall k st0 st1,
          iteration env i st0 = (Ok tt, st1) ->
          loop env (S k) i st0 = loop env k (S i) st1) in *.
  clearbody Next.
  exec_success H.
  all: split; [|repeat split; solve [reflexivity | exact Hloop]].
  all: do 5 eexists.
  all: split;
     [ (left; do 2 eexists; reflexivity)
       + (right; do 2 eexists; reflexivity)
     | split; [ find_sublist
              | split; [ match goal with
                         | |- exists t0, ?l = _ =>
                             exists (take (length l - 2) l); reflexivity
                         end
                       | split; [ repeat constructor | reflexivity ] ] ] ].
Qed.

(** *** The method only ever appends *)

Lemma extends_ret {A} (a : A) : extends (@ret W A a).
Proof. intros st. split; exists []; simpl; rewrite app_nil_r; reflexivity. Qed.

Lemma extends_throw {A} e : extends (@throw W A e).
Proof. intros st. split; exists []; simpl; rewrite app_nil_r; reflexivity. Qed.

Lemma extends_call {R} (c : Call R) : extends (call env c).
Proof.
  intros st. unfold call. destruct (respond env c (world st)) as [r w].
  simpl. split; [eexists; reflexivity|].
  exists []. rewrite app_nil_r. reflexivity.
Qed.

Lemma extends_console m : extends (@console W m).
Proof.
  intros st. simpl. split; [eexists; reflexivity|].
  exists []. rewrite app_nil_r. reflexivity.
Qed.

Lemma extends_push l : extends (@push W l).
Proof. intros st. simpl. split; eexists; reflexivity. Qed.

Lemma extends_bind {A B} (m : M W A) (k : A -> M W B) :
  extends m -> (forall a, extends (k a)) -> extends (bind m k).
Proof.
  intros Hm Hk st. unfold bind.
  destruct (Hm st) as [[t Ht] [l Hl]].
  destruct (m st) as [[a|e] st1]; simpl in *.
  - destruct (Hk a st1) as [[t' Ht'] [l' Hl']].
    rewrite Ht', Hl', Ht, Hl, <- !app_assoc. split; eexists; reflexivity.
  - split; eexists; eassumption.
Qed.

Lemma extends_try_catch {A} (m : M W A) h :
  extends m -> (forall e, extends (h e)) -> extends (try_catch m h).
Proof.
  intros Hm Hh st. unfold try_catch.
  destruct (Hm st) as [[t Ht] [l Hl]].
  destruct (m st) as [[a|e] st1]; simpl in *.
  - split; eexists; eassumption.
  - destruct (Hh e st1) as [[t' Ht'] [l' Hl']].
    rewrite Ht', Hl', Ht, Hl, <- !app_assoc. split; eexists; reflexivity.
Qed.

Lemma extends_if {A} (b : bool) (m1 m2 : M W A) :
  extends m1 -> extends m2 -> extends (if b then m1 else m2).
Proof. destruct b; auto. Qed.

Local Hint Resolve extends_ret extends_throw extends_call extends_console
  extends_push extends_bind extends_try_catch extends_if : extends.

Lemma extends_tryBlock i operation browserType browserOptions :
  extends (tryBlock env i operation browserType browserOptions).
Proof.
  unfold tryBlock, runOperation, acquireBrowser, connectBrowser,
    launchBrowser, resolveExecutablePath, locateBrowser.
  repeat first
    [ apply extends_bind; [|intros ?]
    | apply extends_try_catch; [|intros ?]
    | apply extends_if
    | match goal with
      | |- extends (match ?o with Some _ => _ | None => _ end) =>
          destruct o
      end
    | solve [auto with extends] ].
Qed.

Lemma extends_catchBlock browserType e :
  extends (catchBlock env browserType e).
Proof. unfold catchBlock. auto 10 with extends. Qed.

Lemma extends_guarded i operation browserType browserOptions :
  extends (guarded env i operation browserType browserOptions).
Proof.
  unfold guarded. apply extends_try_catch.
  - apply extends_tryBlock.
  - intros e. apply extends_catchBlock.
Qed.

Lemma extends_readParameters i : extends (readParameters env i).
Proof. unfold readParameters. auto 10 with extends. Qed.

Lemma extends_iteration i : extends (iteration env i).
Proof.
  unfold iteration. apply extends_bind.
  - apply extends_readParameters.
  - intros [[operation browserType] browserOptions].
    apply extends_guarded.
Qed.

Lemma extends_loop k : forall i, extends (loop env k i).
Proof.
  induction k as [|k IH]; intros i; simpl.
  - apply extends_ret.
  - apply extends_bind; [apply extends_iteration|intros _; apply IH].
Qed.

Lemma log_of_spec {A} (m : M W A) st :
  extends m -> trace (snd (m st)) = trace st ++ log_of m st.
Proof.
  intros H. destruct (H st) as [[t Ht] _]. unfold log_of.
  rewrite Ht, drop_app_length. reflexivity.
Qed.

Lemma output_of_spec {A} (m : M W A) st :
  extends m -> returnData (snd (m st)) = returnData st ++ output_of m st.
Proof.
  intros H. destruct (H st) as [_ [l Hl]]. unfold output_of.
  rewrite Hl, drop_app_length. reflexivity.
Qed.

(** *** The catch block and the turn of the loop *)

Lemma catchBlock_continue browserType e st :
  continueOnFail env = true ->
  catchBlock env browserType e st
    = (Ok tt,
       mkState (world st)
         (trace st ++ [Console (ErrBrowserLaunch e);
                       Push [errorRecord e browserType (platform env)]])
         (returnData st ++ [errorRecord e browserType (platform env)])).
Proof.
  intros H. unfold catchBlock, bind, console, push, record. rewrite H.
  simpl. rewrite <- app_assoc. reflexivity.
Qed.

Lemma catchBlock_rethrow browserType e st :
  continueOnFail env = false ->
  catchBlock env browserType e st
    = (Throw e, record (Console (ErrBrowserLaunch e)) st).
Proof.
  intros H. unfold catchBlock, bind, console, throw. rewrite H.
  reflexivity.
Qed.

Lemma tryBlock_throw_output i operation browserType browserOptions st e st' :
  tryBlock env i operation browserType browserOptions st = (Throw e, st') ->
  returnData st' = returnData st.
Proof.
  intros H. revert H. exec; intros H; try discriminate H;
    injection H as _ <-; reflexivity.
Qed.

Lemma readParameters_output i st0 r st :
  readParameters env i st0 = (r, st) -> returnData st = returnData st0.
Proof.
  intros H. revert H. exec; intros H; injection H as _ <-; reflexivity.
Qed.

Lemma iteration_eq i st0 operation browserType browserOptions st :
  readParameters env i st0
    = (Ok (operation, browserType, browserOptions), st) ->
  iteration env i st0 = guarded env i operation browserType browserOptions st.
Proof. intros H. unfold iteration, bind. rewrite H. reflexivity. Qed.

Lemma iteration_read_fails i st0 e st1 :
  readParameters env i st0 = (Throw e, st1) ->
  iteration env i st0 = (Throw e, st1).
Proof. intros H. unfold iteration, bind. rewrite H. reflexivity. Qed.

Lemma loop_stop k i st e st1 :
  iteration env i st = (Throw e, st1) ->
  loop env (S k) i st = (Throw e, st1).
Proof. intros H. simpl. unfold bind. rewrite H. reflexivity. Qed.

Lemma errorRecord_fields e browserType os :
  json (errorRecord e browserType os) !! "error" = Some (JStr (message e))
  /\ json (errorRecord e browserType os) !! "browserType"
     = Some (JStr browserType)
  /\ json (errorRecord e browserType os) !! "os" = Some (JStr os).
Proof.
  unfold errorRecord. simpl. split; [|split]; reflexivity.
Qed.

(** C2, as the method has it.  With continue-on-fail on, an item whose
    three leading parameter reads have come back and whose [try] block
    then throws contributes exactly one record to [returnData]: it
    carries the message of the error, the browser kind of the item and
    the identifier of the operating system, it is appended directly
    behind what the earlier items have left there, and the loop goes on
    with the next item. *)
Theorem error_record_on_failure
    i operation browserType browserOptions st0 st e st1 :
  continueOnFail env = true ->
  readParameters env i st0
    = (Ok (operation, browserType, browserOptions), st) ->
  tryBlock env i operation browserType browserOptions st = (Throw e, st1) ->
  let item := errorRecord e browserType (platform env) in
  let st2 := mkState (world st1)
               (trace st1 ++ [Console (ErrBrowserLaunch e); Push [item]])
               (returnData st0 ++ [item]) in
  iteration env i st0 = (Ok tt, st2)
  /\ output_of (iteration env i) st0 = [item]
  /\ json item !! "error" = Some (JStr (message e))
  /\ json item !! "browserType" = Some (JStr browserType)
  /\ json item !! "os" = Some (JStr (platform env))
  /\ returnData st2 !! length (returnData st0) = Some item
  /\ (forall k, loop env (S k) i st0 = loop env k (S i) st2).
Proof.
  intros Hcof Hread Htry item st2.
  assert (Hit : iteration env i st0 = (Ok tt, st2)).
  { rewrite (iteration_eq _ _ _ _ _ _ Hread). unfold guarded.
    rewrite (try_catch_throw _ _ _ _ _ Htry).
    rewrite (catchBlock_continue _ _ _ Hcof).
    rewrite (tryBlock_throw_output _ _ _ _ _ _ _ Htry).
    rewrite (readParameters_output _ _ _ _ Hread). reflexivity. }
  destruct (errorRecord_fields e browserType (platform env))
    as (Herr & Hkind & Hos).
  split; [exact Hit|]. split.
  { unfold output_of. rewrite Hit. simpl. apply drop_app_length. }
  split; [exact Herr|]. split; [exact Hkind|]. split; [exact Hos|]. split.
  { simpl. rewrite lookup_app_r by lia.
    rewrite Nat.sub_diag. reflexivity. }
  intros k. apply loop_next. exact Hit.
Qed.

(** C6.  With continue-on-fail off, a failure of item [i], be it in one
    of its parameter reads or in its [try] block, makes the turn of the
    loop throw that error; the loop stops there, whatever the number of
    items still waiting: its log from item [i] on is the log of item [i]
    alone, and [returnData] is what it was when item [i] began. *)
Theorem failure_stops_run i st0 e st1 k :
  continueOnFail env = false ->
  (readParameters env i st0 = (Throw e, st1)
   \/ exists operation browserType browserOptions st st',
        readParameters env i st0
          = (Ok (operation, browserType, browserOptions), st)
        /\ tryBlock env i operation browserType browserOptions st
           = (Throw e, st')
        /\ st1 = record (Console (ErrBrowserLaunch e)) st') ->
  iteration env i st0 = (Throw e, st1)
  /\ loop env (S k) i st0 = (Throw e, st1)
  /\ returnData st1 = returnData st0
  /\ log_of (loop env (S k) i) st0 = log_of (iteration env i) st0.
Proof.
  intros Hcof Hfail.
  assert (Hit : iteration env i st0 = (Throw e, st1)).
  { destruct Hfail as [Hread | (operation & browserType & browserOptions
                                 & st & st' & Hread & Htry & ->)].
    - apply iteration_read_fails. exact Hread.
    - rewrite (iteration_eq _ _ _ _ _ _ Hread). unfold guarded.
      rewrite (try_catch_throw _ _ _ _ _ Htry).
      apply catchBlock_rethrow. exact Hcof. }
  pose proof (loop_stop k _ _ _ _ Hit) as Hloop.
  split; [exact Hit|]. split; [exact Hloop|]. split.
  - destruct Hfail as [Hread | (operation & browserType & browserOptions
                                 & st & st' & Hread & Htry & ->)].
    + apply (readParameters_output _ _ _ _ Hread).
    + simpl. rewrite (tryBlock_throw_output _ _ _ _ _ _ _ Htry).
      apply (readParameters_output _ _ _ _ Hread).
  - unfold log_of. rewrite Hloop, Hit. reflexivity.
Qed.

(** *** Closing on the way out *)

Lemma guarded_log_on_throw i operation browserType browserOptions st e st' :
  tryBlock env i operation browserType browserOptions st = (Throw e, st') ->
  exists t,
    log_of (guarded env i operation browserType browserOptions) st
      = log_of (tryBlock env i operation browserType browserOptions) st
        ++ Console (ErrBrowserLaunch e) :: t
    /\ (t = [] \/ t = [Push [errorRecord e browserType (platform env)]]).
Proof.
  intros H.
  pose proof (log_of_spec _ st
                (extends_tryBlock i operation browserType browserOptions))
    as Hlog.
  rewrite H in Hlog. simpl in Hlog.
  unfold guarded. unfold log_of at 1.
  rewrite (try_catch_throw _ _ _ _ _ H).
  destruct (continueOnFail env) eqn:Hcof.
  - rewrite (catchBlock_continue _ _ _ Hcof). simpl.
    rewrite Hlog, <- app_assoc, drop_app_length. eauto.
  - rewrite (catchBlock_rethrow _ _ _ Hcof). simpl.
    rewrite Hlog, <- app_assoc, drop_app_length. eauto.
Qed.

(** C10.  In the log of every [try] block a [browser.close()] comes
    directly after the script runner or the dispatcher has returned its
    result and nowhere else.  So when the block throws, and it is not
    [close] itself that threw, the whole [try] statement of the item, up
    to the error record or the rethrow, has not called [close] at all:
    an error while the context or the page is opened, during navigation,
    dispatch or the script leaves the browser handle unclosed. *)
Theorem no_close_on_failure i operation browserType browserOptions st :
  only_after KClose completes_operation false
    (log_of (tryBlock env i operation browserType browserOptions) st) = true
  /\ (forall e st',
        tryBlock env i operation browserType browserOptions st
          = (Throw e, st') ->
        failing_call
          (log_of (tryBlock env i operation browserType browserOptions) st)
          <> Some KClose ->
        never KClose
          (log_of (guarded env i operation browserType browserOptions) st)).
Proof.
  split.
  - unfold log_of. exec; rewrite ?drop_app_length; reflexivity.
  - intros e st' H Hcall.
    destruct (guarded_log_on_throw _ _ _ _ _ _ _ H) as (t & -> & Ht).
    assert (Htry : never KClose
              (log_of (tryBlock env i operation browserType browserOptions)
                      st)).
    { clear Ht t. revert Hcall. exec_failure H; intros Hcall;
        solve [ solve_never | exfalso; apply Hcall; reflexivity ]. }
    unfold never in *. apply Forall_app. split; [exact Htry|].
    constructor; [discriminate|].
    destruct Ht as [-> | ->]; solve_never.
Qed.

(** *** Navigation and dispatch *)

(** C4.  For [runCustomScript] the method never calls [page.goto]: the
    script runner is the first call made once the page is open.  For
    every other operation the configured URL of the item is read, the
    page is sent there, and the dispatcher is called next; in the log
    of the [try] block a dispatcher call only ever comes directly after
    a [page.goto] that has returned. *)
Theorem navigation_before_dispatch
    i operation browserType browserOptions st :
  (operation = "runCustomScript" ->
     never KGoto
       (log_of (tryBlock env i operation browserType browserOptions) st)
     /\ forall b p st1, exists t,
         log_of (runOperation env i operation b p) st1
         = Console (LogProcessing (i + 1) (length (items env)))
           :: Ev (RunCustomScript i b p)
                 (fst (respond env (RunCustomScript i b p) (world st1)))
           :: t)
  /\ (operation <> "runCustomScript" ->
      only_after KHandle navigated false
        (log_of (tryBlock env i operation browserType browserOptions) st)
        = true
      /\ never KScript
           (log_of (tryBlock env i operation browserType browserOptions) st)
      /\ forall b p st1 url w1 w2,
          respond env (GetNodeParameter_url i) (world st1) = (Ok url, w1) ->
          respond env (Goto p url) w1 = (Ok tt, w2) ->
          exists t,
            log_of (runOperation env i operation b p) st1
            = Ev (GetNodeParameter_url i) (Ok url)
              :: Ev (Goto p url) (Ok tt)
              :: Ev (HandleOperation operation p i)
                    (fst (respond env (HandleOperation operation p i) w2))
              :: t).
Proof.
  split.
  - intros ->. split.
    + unfold log_of. exec; rewrite ?drop_app_length; solve_never.
    + intros b p st1. unfold log_of.
      exec; try congruence; rewrite ?drop_app_length; eauto.
  - intros Hop. split; [|split].
    + unfold log_of. exec; try contradiction;
        rewrite ?drop_app_length; reflexivity.
    + unfold log_of. exec; try contradiction;
        rewrite ?drop_app_length; solve_never.
    + intros b p st1 url w1 w2 Hurl Hgoto. unfold log_of, runOperation.
      rewrite bool_decide_eq_false_2 by exact Hop.
      unfold bind, call, push. simpl. rewrite Hurl. simpl.
      rewrite Hgoto. simpl.
      destruct (respond env (HandleOperation operation p i) w2)
        as [[item|e] w3]; simpl.
      * destruct (respond env (Close b) w3) as [[u|e] w4]; simpl;
          rewrite <- ?app_assoc, drop_app_length; simpl; eauto.
      * rewrite <- ?app_assoc, drop_app_length. simpl. eauto.
Qed.

(** *** The whole run *)

Lemma execute_eq st0 w1 :
  respond env (RequireModule "playwright") (world st0) = (Ok tt, w1) ->
  execute env st0
  = match loop env (length (items env)) 0
            (mkState w1
               (trace st0 ++ [Ev (RequireModule "playwright") (Ok tt)]) [])
    with
    | (Ok _, st') => (Ok [returnData st'], st')
    | (Throw e, st') => (Throw e, st')
    end.
Proof.
  intros H. unfold execute, bind, call. simpl. rewrite H. reflexivity.
Qed.

(** *** What an item contributes *)

Lemma loop_output k i st0 st1 :
  iteration env i st0 = (Ok tt, st1) ->
  returnData (snd (loop env (S k) i st0))
    = returnData st0 ++ output_of (iteration env i) st0
      ++ output_of (loop env k (S i)) st1.
Proof.
  intros Hit. rewrite (loop_next _ _ _ _ Hit).
  rewrite (output_of_spec _ st1 (extends_loop k (S i))).
  pose proof (output_of_spec _ st0 (extends_iteration i)) as H0.
  rewrite Hit in H0. simpl in H0. rewrite H0, <- app_assoc. reflexivity.
Qed.

(** C5.  An item whose parameter reads and whose [try] block go through
    without an exception contributes, for an operation other than
    [runCustomScript], exactly the one item the dispatcher returned for
    it, and for [runCustomScript] exactly the items the script returned,
    however many these are.  What the loop leaves in [returnData] from
    item [i] on is what was there before, then the contribution of item
    [i], then what the later items add. *)
Theorem output_per_item
    i operation browserType browserOptions st0 st st' :
  readParameters env i st0
    = (Ok (operation, browserType, browserOptions), st) ->
  tryBlock env i operation browserType browserOptions st = (Ok tt, st') ->
  let t := log_of (tryBlock env i operation browserType browserOptions) st in
  (operation <> "runCustomScript" ->
     exists p item,
       In (Ev (HandleOperation operation p i) (Ok item)) t
       /\ output_of (iteration env i) st0 = [item])
  /\ (operation = "runCustomScript" ->
      exists b p result,
        In (Ev (RunCustomScript i b p) (Ok result)) t
        /\ output_of (iteration env i) st0 = result)
  /\ (forall k,
        returnData (snd (loop env (S k) i st0))
        = returnData st0 ++ output_of (iteration env i) st0
          ++ output_of (loop env k (S i)) st').
Proof.
  intros Hread Htry t. subst t.
  assert (Hit : iteration env i st0 = (Ok tt, st')).
  { rewrite (iteration_eq _ _ _ _ _ _ Hread). unfold guarded.
    apply try_catch_ok. exact Htry. }
  assert (Hout : forall l,
             returnData st' = returnData st ++ l ->
             output_of (iteration env i) st0 = l).
  { intros l Hl. unfold output_of. rewrite Hit. simpl. rewrite Hl.
    rewrite (readParameters_output _ _ _ _ Hread).
    apply drop_app_length. }
  split; [|split].
  - intros Hop.
    cut (exists p item,
           In (Ev (HandleOperation operation p i) (Ok item))
              (log_of (tryBlock env i operation browserType browserOptions)
                      st)
           /\ returnData st' = returnData st ++ [item]).
    { intros (p & item & Hin & Hl). exists p, item. auto. }
    clear Hit Hout Hread.
    exec_success Htry; try contradiction;
      do 2 eexists; (split; [solve_In | reflexivity]).
  - intros Hop.
    cut (exists b p result,
           In (Ev (RunCustomScript i b p) (Ok result))
              (log_of (tryBlock env i operation browserType browserOptions)
                      st)
           /\ returnData st' = returnData st ++ result).
    { intros (b & p & result & Hin & Hl). exists b, p, result. auto. }
    clear Hit Hout Hread. subst operation.
    exec_success Htry; try congruence;
      do 3 eexists; (split; [solve_In | reflexivity]).
  - intros k. apply loop_output. exact Hit.
Qed.

(** *** Launch and connect options *)

(** C7.  In launch mode the browser is launched with [headless] set
    unless the item's [headless] option is [false], with the item's
    [slowMo] (0 when it is not set) and with the resolved path; in
    connect mode [connectOverCDP] gets the endpoint of the credentials
    and the same [slowMo].  No [launch] and no [connectOverCDP] in the
    log of an item carries other options. *)
Theorem browser_options_passed credentials browserType browserOptions st :
  (connectionType credentials <> Some "connect" ->
   forall path st1,
     resolveExecutablePath env credentials browserType st = (Ok path, st1) ->
     acquireBrowser env credentials browserType browserOptions st
     = call env
         (Launch browserType
            (mkLaunchOptions (headless_not_false browserOptions)
                             (slowMo_or_0 browserOptions) path))
         (record (Console (LogLaunching path)) st1))
  /\ (connectionType credentials = Some "connect" ->
      browserType = "chromium" ->
      acquireBrowser env credentials browserType browserOptions st
      = call env
          (ConnectOverCDP (endpointUrl credentials)
             (mkConnectOptions (slowMo_or_0 browserOptions)))
          (record (Console (LogConnecting (endpointUrl credentials))) st))
  /\ (headless_not_false browserOptions = false
      <-> headless browserOptions = Some false)
  /\ (forall n, slowMo browserOptions = Some n ->
                slowMo_or_0 browserOptions = n)
  /\ (slowMo browserOptions = None -> slowMo_or_0 browserOptions = 0%Z)
  /\ (forall i operation,
        Forall (options_from browserType browserOptions)
          (log_of (tryBlock env i operation browserType browserOptions) st)).
Proof.
  split; [|split; [|split; [|split; [|split]]]].
  - intros Hmode path st1 Hpath. rewrite (launch_mode _ _ _ Hmode).
    unfold launchBrowser, bind. rewrite Hpath. reflexivity.
  - intros Hmode ->. unfold acquireBrowser, connectBrowser.
    rewrite bool_decide_eq_true_2 by exact Hmode.
    rewrite bool_decide_eq_false_2 by (intros H; apply H; reflexivity).
    reflexivity.
  - apply headless_not_false_spec.
  - intros n. apply slowMo_or_0_set.
  - apply slowMo_or_0_unset.
  - intros i operation. apply tryBlock_options.
Qed.

(** *** Connection types other than [connect] *)

(** C9.  Whatever [connectionType] holds, as long as it is not the
    string [connect], the launch branch is taken: the path is resolved
    and the browser is launched, no [connectOverCDP] is logged, neither
    by the acquisition nor by the [try] block of an item that gets such
    credentials, and [endpointUrl] has no influence on the outcome. *)
Theorem other_connection_types_launch
    credentials browserType browserOptions st :
  connectionType credentials <> Some "connect" ->
  acquireBrowser env credentials browserType browserOptions st
    = (path <- resolveExecutablePath env credentials browserType ;;
       console (LogLaunching path) ;;;
       call env
         (Launch browserType
            (mkLaunchOptions (headless_not_false browserOptions)
                             (slowMo_or_0 browserOptions) path))) st
  /\ never KConnect
       (log_of (acquireBrowser env credentials browserType browserOptions)
               st)
  /\ (forall i operation st0 w1,
        respond env (GetCredentials "playwrightCredentials") (world st0)
          = (Ok credentials, w1) ->
        never KConnect
          (log_of (tryBlock env i operation browserType browserOptions)
                  st0))
  /\ (forall endpoint,
        acquireBrowser env
          (mkCredentials (connectionType credentials)
                         (executablePath credentials) endpoint)
          browserType browserOptions st
        = acquireBrowser env credentials browserType browserOptions st).
Proof.
  intros Hmode. split; [|split; [|split]].
  - rewrite (launch_mode _ _ _ Hmode). reflexivity.
  - unfold log_of. exec; try contradiction;
      rewrite ?drop_app_length; solve_never.
  - intros i operation st0 w1 Hcred. unfold log_of, tryBlock.
    unfold bind at 1. unfold call at 1. rewrite Hcred.
    exec; try contradiction;
      rewrite ?drop_app_length; solve_never.
  - intros endpoint. rewrite !launch_mode by exact Hmode. reflexivity.
Qed.

End Properties.

(** ** Worked examples on the reference environment *)

(** Firefox is selected while the credentials ask for a CDP connection:
    the [try] block stops at the guard. *)
Lemma connect_requires_chromium_witness :
  connectionType Demo.cdp_credentials = Some "connect"
  /\ "firefox" <> "chromium"
  /\ tryBlock (Demo.environment Demo.connect_firefox 1 true) 0
       "navigate" "firefox" Demo.no_options (Demo.start true)
     = (Throw UnsupportedConfiguration,
        mkState (Demo.mkWorld true 0)
          [Ev (GetCredentials "playwrightCredentials")
              (Ok Demo.cdp_credentials)]
          []).
Proof.
  split; [reflexivity|]. split; [discriminate|].
  apply (connect_requires_chromium
           (Demo.environment Demo.connect_firefox 1 true) 0
           "navigate" "firefox" Demo.no_options (Demo.start true)
           Demo.cdp_credentials (Demo.mkWorld true 0));
    [reflexivity | reflexivity | discriminate].
Defined.

(** With continue-on-fail on, the host cannot evaluate the [browser]
    parameter of item 0: the error leaves the method, nothing is recorded
    and item 1 is never looked at. *)
Lemma parameter_error_escapes :
  continueOnFail (Demo.environment Demo.bad_parameter 2 true) = true
  /\ iteration (Demo.environment Demo.bad_parameter 2 true) 0
       (Demo.start true)
     = (Throw Demo.expression_error,
        mkState (Demo.mkWorld true 0)
          [Ev (GetNodeParameter_operation 0) (Ok "navigate");
           Ev (GetNodeParameter_browser 0) (Throw Demo.expression_error)]
          [])
  /\ execute (Demo.environment Demo.bad_parameter 2 true) (Demo.start true)
     = (Throw Demo.expression_error,
        mkState (Demo.mkWorld true 0)
          [Ev (RequireModule "playwright") (Ok tt);
           Ev (GetNodeParameter_operation 0) (Ok "navigate");
           Ev (GetNodeParameter_browser 0) (Throw Demo.expression_error)]
          []).
Proof. repeat split; vm_compute; reflexivity. Qed.

(** Item 0 runs a script that returns nothing, item 1 fails to navigate:
    the record of item 1 is the only output and sits at index 0. *)
Example error_record_after_silent_script :
  fst (execute (Demo.environment Demo.silent_then_unreachable 2 true)
         (Demo.start true))
  = Ok [[errorRecord Demo.dns_error "firefox" "linux"]].
Proof. vm_compute. reflexivity. Qed.

(** Navigation of item 0 fails with continue-on-fail on. *)
Lemma error_record_on_failure_witness :
  continueOnFail (Demo.environment Demo.unreachable 2 true) = true
  /\ output_of (iteration (Demo.environment Demo.unreachable 2 true) 0)
       (Demo.start true)
     = [errorRecord Demo.dns_error "firefox" "linux"].
Proof.
  split; [reflexivity|].
  pose proof (error_record_on_failure
                (Demo.environment Demo.unreachable 2 true) 0
                "navigate" "firefox" Demo.no_options (Demo.start true)
                (snd (readParameters
                        (Demo.environment Demo.unreachable 2 true) 0
                        (Demo.start true)))
                Demo.dns_error
                (snd (tryBlock (Demo.environment Demo.unreachable 2 true) 0
                        "navigate" "firefox" Demo.no_options
                        (snd (readParameters
                                (Demo.environment Demo.unreachable 2 true) 0
                                (Demo.start true)))))
                ltac:(vm_compute; reflexivity) ltac:(vm_compute; reflexivity)
                ltac:(vm_compute; reflexivity)) as H.
  cbv zeta in H. destruct H as (_ & H & _). exact H.
Defined.

(** Nothing is installed, the credentials name no executable and the
    download of the browser fails: the locator has failed, the installer
    is called and throws, and the locator is not asked a second time. *)
Lemma installer_throws_no_retry :
  resolveExecutablePath (Demo.environment Demo.install_fails 1 true)
    (mkCredentials (Some "launch") (Some "") None) "firefox"
    (Demo.start false)
  = (Throw Demo.download_error,
     mkState (Demo.mkWorld false 0)
       [Ev (GetBrowserExecutablePath "firefox" "/opt/node/browsers")
           (Throw (mkError "Browser executable not found"));
        Console (ErrBrowserPath "Browser executable not found");
        Ev (InstallBrowser "firefox") (Throw Demo.download_error)]
       [])
  /\ count KInstall
       (log_of (resolveExecutablePath
                  (Demo.environment Demo.install_fails 1 true)
                  (mkCredentials (Some "launch") (Some "") None) "firefox")
               (Demo.start false))
     = 1
  /\ count KLocate
       (log_of (resolveExecutablePath
                  (Demo.environment Demo.install_fails 1 true)
                  (mkCredentials (Some "launch") (Some "") None) "firefox")
               (Demo.start false))
     = 1.
Proof. repeat split; vm_compute; reflexivity. Qed.

(** Nothing is installed and the credentials name no executable: the
    locator fails, the installer runs, the locator finds the browser. *)
Lemma executable_path_resolution_witness :
  resolveExecutablePath (Demo.environment Demo.plain 1 true)
    (mkCredentials (Some "launch") (Some "") None) "firefox"
    (Demo.start false)
  = (Ok "/opt/node/browsers/firefox",
     mkState (Demo.mkWorld true 0)
       [Ev (GetBrowserExecutablePath "firefox" "/opt/node/browsers")
           (Throw (mkError "Browser executable not found"));
        Console (ErrBrowserPath "Browser executable not found");
        Ev (InstallBrowser "firefox") (Ok tt);
        Ev (GetBrowserExecutablePath "firefox" "/opt/node/browsers")
           (Ok "/opt/node/browsers/firefox")]
       []).
Proof.
  pose proof (executable_path_resolution
                (Demo.environment Demo.plain 1 true)
                (mkCredentials (Some "launch") (Some "") None) "firefox"
                (Demo.start false)) as H.
  cbv zeta in H. destruct H as (_ & H & _).
  destruct (H (or_intror eq_refl)) as (_ & Hretry).
  destruct (Hretry (mkError "Browser executable not found")
              (Demo.mkWorld false 0) (Demo.mkWorld true 0)
              (Ok "/opt/node/browsers/firefox") (Demo.mkWorld true 0)
              ltac:(vm_compute; reflexivity) ltac:(vm_compute; reflexivity)
              ltac:(vm_compute; reflexivity)) as (Heq & _).
  exact Heq.
Defined.

(** A script item never navigates; a navigate item dispatches only after
    [page.goto]. *)
Lemma navigation_before_dispatch_witness :
  never KGoto
    (log_of (tryBlock (Demo.environment Demo.scripted 1 true) 0
               "runCustomScript" "firefox" Demo.no_options)
            (Demo.start true))
  /\ only_after KHandle navigated false
       (log_of (tryBlock (Demo.environment Demo.plain 1 true) 0
                  "navigate" "firefox" Demo.no_options)
               (Demo.start true)) = true.
Proof.
  split.
  - apply (proj1 (navigation_before_dispatch
                    (Demo.environment Demo.scripted 1 true) 0
                    "runCustomScript" "firefox" Demo.no_options
                    (Demo.start true))).
    reflexivity.
  - apply (proj2 (navigation_before_dispatch
                    (Demo.environment Demo.plain 1 true) 0
                    "navigate" "firefox" Demo.no_options
                    (Demo.start true))).
    discriminate.
Defined.

(** A navigate item contributes the one item of the dispatcher, a script
    item the two items of its script. *)
Lemma output_per_item_witness :
  (exists p item,
     In (Ev (HandleOperation "navigate" p 0) (Ok item))
        (log_of (tryBlock (Demo.environment Demo.plain 2 true) 0
                   "navigate" "firefox" Demo.no_options)
                (snd (readParameters (Demo.environment Demo.plain 2 true) 0
                        (Demo.start true))))
     /\ output_of (iteration (Demo.environment Demo.plain 2 true) 0)
          (Demo.start true) = [item])
  /\ (exists b p result,
        In (Ev (RunCustomScript 0 b p) (Ok result))
           (log_of (tryBlock (Demo.environment Demo.scripted 2 true) 0
                      "runCustomScript" "firefox" Demo.no_options)
                   (snd (readParameters
                           (Demo.environment Demo.scripted 2 true) 0
                           (Demo.start true))))
        /\ output_of (iteration (Demo.environment Demo.scripted 2 true) 0)
             (Demo.start true) = result).
Proof.
  split.
  - pose proof (output_per_item (Demo.environment Demo.plain 2 true) 0
                  "navigate" "firefox" Demo.no_options (Demo.start true)
                  (snd (readParameters (Demo.environment Demo.plain 2 true) 0
                          (Demo.start true)))
                  (snd (iteration (Demo.environment Demo.plain 2 true) 0
                          (Demo.start true)))
                  ltac:(vm_compute; reflexivity)
                ltac:(vm_compute; reflexivity)) as H.
    cbv zeta in H. destruct H as (H & _ & _).
    apply H. discriminate.
  - pose proof (output_per_item (Demo.environment Demo.scripted 2 true) 0
                  "runCustomScript" "firefox" Demo.no_options
                  (Demo.start true)
                  (snd (readParameters
                          (Demo.environment Demo.scripted 2 true) 0
                          (Demo.start true)))
                  (snd (iteration (Demo.environment Demo.scripted 2 true) 0
                          (Demo.start true)))
                  ltac:(vm_compute; reflexivity)
                ltac:(vm_compute; reflexivity)) as H.
    cbv zeta in H. destruct H as (_ & H & _).
    apply H. reflexivity.
Defined.

(** The contributions of the two demo items, computed. *)
Example output_per_item_values :
  output_of (iteration (Demo.environment Demo.plain 2 true) 0)
    (Demo.start true)
  = [Demo.page_item "Example Domain"]
  /\ output_of (iteration (Demo.environment Demo.scripted 2 true) 0)
       (Demo.start true)
     = Demo.two_items.
Proof. split; vm_compute; reflexivity. Qed.

(** Three items wait, navigation of the first one fails, continue-on-fail
    is off: the loop throws at once and has only the log of item 0. *)
Lemma failure_stops_run_witness :
  continueOnFail (Demo.environment Demo.unreachable 3 false) = false
  /\ fst (loop (Demo.environment Demo.unreachable 3 false) 3 0
            (Demo.start true))
     = Throw Demo.dns_error
  /\ log_of (loop (Demo.environment Demo.unreachable 3 false) 3 0)
       (Demo.start true)
     = log_of (iteration (Demo.environment Demo.unreachable 3 false) 0)
         (Demo.start true).
Proof.
  split; [reflexivity|].
  pose proof (failure_stops_run
                (Demo.environment Demo.unreachable 3 false) 0
                (Demo.start true) Demo.dns_error
                (snd (iteration (Demo.environment Demo.unreachable 3 false) 0
                        (Demo.start true)))
                2 ltac:(vm_compute; reflexivity)) as H.
  destruct H as (_ & Hloop & _ & Hlog).
  - right.
    exists "navigate", "firefox", Demo.no_options,
      (snd (readParameters (Demo.environment Demo.unreachable 3 false) 0
              (Demo.start true))),
      (snd (tryBlock (Demo.environment Demo.unreachable 3 false) 0
              "navigate" "firefox" Demo.no_options
              (snd (readParameters
                      (Demo.environment Demo.unreachable 3 false) 0
                      (Demo.start true))))).
    repeat split; vm_compute; reflexivity.
  - split; [rewrite Hloop; reflexivity | exact Hlog].
Defined.

(** Chromium over CDP with [slowMo] 250, and a Firefox launch without
    options. *)
Lemma browser_options_passed_witness :
  acquireBrowser (Demo.environment Demo.connect_chromium 1 true)
    Demo.cdp_credentials "chromium" Demo.slow_options (Demo.start true)
  = (Ok 0,
     mkState (Demo.mkWorld true 1)
       [Console (LogConnecting (Some "http://localhost:9222"));
        Ev (ConnectOverCDP (Some "http://localhost:9222")
              (mkConnectOptions 250%Z)) (Ok 0)]
       [])
  /\ acquireBrowser (Demo.environment Demo.plain 1 true)
       (mkCredentials (Some "launch") (Some "") None) "firefox"
       Demo.no_options (Demo.start true)
     = (Ok 0,
        mkState (Demo.mkWorld true 1)
          [Ev (GetBrowserExecutablePath "firefox" "/opt/node/browsers")
              (Ok "/opt/node/browsers/firefox");
           Console (LogLaunching "/opt/node/browsers/firefox");
           Ev (Launch "firefox"
                 (mkLaunchOptions true 0%Z "/opt/node/browsers/firefox"))
              (Ok 0)]
          []).
Proof.
  split.
  - destruct (browser_options_passed
                (Demo.environment Demo.connect_chromium 1 true)
                Demo.cdp_credentials "chromium" Demo.slow_options
                (Demo.start true)) as (_ & H & _).
    rewrite (H eq_refl eq_refl). vm_compute. reflexivity.
  - destruct (browser_options_passed
                (Demo.environment Demo.plain 1 true)
                (mkCredentials (Some "launch") (Some "") None) "firefox"
                Demo.no_options (Demo.start true)) as (H & _).
    rewrite (H ltac:(discriminate) "/opt/node/browsers/firefox"
               (mkState (Demo.mkWorld true 0)
                  [Ev (GetBrowserExecutablePath "firefox"
                         "/opt/node/browsers")
                      (Ok "/opt/node/browsers/firefox")] [])
               ltac:(vm_compute; reflexivity)).
    vm_compute. reflexivity.
Defined.

(** A navigate item that goes through: one close, one push, one browser. *)
Lemma browser_closed_before_emit_witness :
  count KLaunch
    (log_of (tryBlock (Demo.environment Demo.plain 1 true) 0
               "navigate" "firefox" Demo.no_options) (Demo.start true))
  + count KConnect
      (log_of (tryBlock (Demo.environment Demo.plain 1 true) 0
                 "navigate" "firefox" Demo.no_options) (Demo.start true))
  = 1
  /\ count KClose
       (log_of (tryBlock (Demo.environment Demo.plain 1 true) 0
                  "navigate" "firefox" Demo.no_options) (Demo.start true))
     = 1
  /\ count KPush
       (log_of (tryBlock (Demo.environment Demo.plain 1 true) 0
                  "navigate" "firefox" Demo.no_options) (Demo.start true))
     = 1.
Proof.
  pose proof (browser_closed_before_emit
                (Demo.environment Demo.plain 1 true) 0
                "navigate" "firefox" Demo.no_options (Demo.start true)
                (snd (tryBlock (Demo.environment Demo.plain 1 true) 0
                        "navigate" "firefox" Demo.no_options
                        (Demo.start true)))
                ltac:(vm_compute; reflexivity)) as H.
  cbv zeta in H. destruct H as (_ & H1 & _ & _ & H2 & H3 & _).
  split; [exact H1|]. split; [exact H2|exact H3].
Defined.

(** [Connect] with a capital letter is not [connect]: the browser is
    launched from the explicit executable. *)
Lemma other_connection_types_launch_witness :
  connectionType Demo.odd_credentials <> Some "connect"
  /\ never KConnect
       (log_of (acquireBrowser (Demo.environment Demo.odd_mode 1 true)
                  Demo.odd_credentials "firefox" Demo.no_options)
               (Demo.start true))
  /\ acquireBrowser (Demo.environment Demo.odd_mode 1 true)
       (mkCredentials (Some "Connect") (Some "/usr/bin/firefox") None)
       "firefox" Demo.no_options (Demo.start true)
     = acquireBrowser (Demo.environment Demo.odd_mode 1 true)
         Demo.odd_credentials "firefox" Demo.no_options (Demo.start true).
Proof.
  split; [discriminate|].
  destruct (other_connection_types_launch
              (Demo.environment Demo.odd_mode 1 true)
              Demo.odd_credentials "firefox" Demo.no_options
              (Demo.start true) ltac:(discriminate))
    as (_ & Hnever & _ & Hsame).
  split; [exact Hnever | exact (Hsame None)].
Defined.

(** Navigation fails after the browser was launched: the item ends
    without a single [close]. *)
Lemma no_close_on_failure_witness :
  failing_call
    (log_of (tryBlock (Demo.environment Demo.unreachable 1 true) 0
               "navigate" "firefox" Demo.no_options) (Demo.start true))
  = Some KGoto
  /\ never KClose
       (log_of (guarded (Demo.environment Demo.unreachable 1 true) 0
                  "navigate" "firefox" Demo.no_options) (Demo.start true)).
Proof.
  split; [reflexivity|].
  destruct (no_close_on_failure
              (Demo.environment Demo.unreachable 1 true) 0
              "navigate" "firefox" Demo.no_options (Demo.start true))
    as (_ & H).
  apply (H Demo.dns_error
           (snd (tryBlock (Demo.environment Demo.unreachable 1 true) 0
                   "navigate" "firefox" Demo.no_options (Demo.start true)))
           ltac:(vm_compute; reflexivity)).
  vm_compute. discriminate.
Defined.

(** The scenario of the specification: Firefox, no explicit executable,
    nothing installed, the installer succeeds.  The run completes with the
    page of the newly installed browser and without any error. *)
Example install_then_launch :
  fst (execute (Demo.environment Demo.plain 1 false) (Demo.start false))
  = Ok [[Demo.page_item "Example Domain"]].
Proof. vm_compute. reflexivity. Qed.

(** ** The run as a whole *)

Section Run.
Context {W : Type} (env : Environment W).

Implicit Types (st : State W) (i : nat) (e : JsError).
Implicit Types (operation browserType : string).
Implicit Types (browserOptions : IBrowserOptions) (credentials : Credentials).

(** *** Logs of composed computations *)

Lemma count_app k (t1 t2 : list Event) :
  count k (t1 ++ t2) = count k t1 + count k t2.
Proof. unfold count. rewrite filter_app, length_app. reflexivity. Qed.

Lemma tally_app f (t1 t2 : list Event) :
  tally f (t1 ++ t2) = tally f t1 + tally f t2.
Proof. unfold tally. rewrite filter_app, length_app. reflexivity. Qed.

Lemma emitted_app (t1 t2 : list Event) :
  emitted (t1 ++ t2) = emitted t1 ++ emitted t2.
Proof. unfold emitted. apply flat_map_app. Qed.

Lemma clean_app (t1 t2 : list Event) :
  clean (t1 ++ t2) = clean t1 && clean t2.
Proof. unfold clean. apply forallb_app. Qed.

Lemma log_of_bind {A B} (m : M W A) (f : A -> M W B) st :
  extends m -> (forall a, extends (f a)) ->
  log_of (bind m f) st
  = log_of m st
    ++ match m st with
       | (Ok a, st1) => log_of (f a) st1
       | (Throw _, _) => []
       end.
Proof.
  intros Hm Hf. unfold log_of, bind.
  destruct (Hm st) as [[t Ht] _].
  destruct (m st) as [[a|e] st1]; simpl in *.
  - destruct (Hf a st1) as [[t' Ht'] _].
    rewrite Ht', Ht, <- app_assoc, !drop_app_length.
    rewrite app_assoc, drop_app_length. reflexivity.
  - rewrite app_nil_r. reflexivity.
Qed.

Lemma log_of_loop_S k i st :
  log_of (loop env (S k) i) st
  = log_of (iteration env i) st
    ++ match iteration env i st with
       | (Ok _, st1) => log_of (loop env k (S i)) st1
       | (Throw _, _) => []
       end.
Proof.
  simpl. apply log_of_bind.
  - apply extends_iteration.
  - intros _. apply extends_loop.
Qed.

Lemma log_of_iteration i st :
  log_of (iteration env i) st
  = log_of (readParameters env i) st
    ++ match readParameters env i st with
       | (Ok (operation, browserType, browserOptions), st1) =>
           log_of (guarded env i operation browserType browserOptions) st1
       | (Throw _, _) => []
       end.
Proof.
  unfold iteration. rewrite log_of_bind.
  - destruct (readParameters env i st) as [[[[op bt] o]|e] st1]; reflexivity.
  - apply extends_readParameters.
  - intros [[op bt] o]. apply extends_guarded.
Qed.

Lemma log_of_try_catch {A} (m : M W A) h st :
  extends m -> (forall e, extends (h e)) ->
  log_of (try_catch m h) st
  = log_of m st
    ++ match m st with
       | (Ok _, _) => []
       | (Throw e, st1) => log_of (h e) st1
       end.
Proof.
  intros Hm Hh. unfold log_of, try_catch.
  destruct (Hm st) as [[t Ht] _].
  destruct (m st) as [[a|e] st1]; simpl in *.
  - rewrite app_nil_r. reflexivity.
  - destruct (Hh e st1) as [[t' Ht'] _].
    rewrite Ht', Ht, <- app_assoc, !drop_app_length.
    rewrite app_assoc, drop_app_length. reflexivity.
Qed.

Lemma log_of_catchBlock browserType e st :
  log_of (catchBlock env browserType e) st
  = Console (ErrBrowserLaunch e)
    :: (if continueOnFail env
        then [Push [errorRecord e browserType (platform env)]]
        else []).
Proof.
  unfold log_of, catchBlock, bind, console, push, throw, record. simpl.
  destruct (continueOnFail env); simpl;
    rewrite <- ?app_assoc, drop_app_length; reflexivity.
Qed.

Lemma log_of_guarded i operation browserType browserOptions st :
  log_of (guarded env i operation browserType browserOptions) st
  = log_of (tryBlock env i operation browserType browserOptions) st
    ++ match tryBlock env i operation browserType browserOptions st with
       | (Ok _, _) => []
       | (Throw e, _) =>
           Console (ErrBrowserLaunch e)
           :: (if continueOnFail env
               then [Push [errorRecord e browserType (platform env)]]
               else [])
       end.
Proof.
  unfold guarded. rewrite log_of_try_catch.
  - destruct (tryBlock env i operation browserType browserOptions st)
      as [[a|e] st1]; [reflexivity|].
    rewrite log_of_catchBlock. reflexivity.
  - apply extends_tryBlock.
  - intros e. apply extends_catchBlock.
Qed.

(** *** What is returned is what was pushed *)

Lemma tracked_ret {A} (a : A) : tracked (@ret W A a).
Proof. intros st. exists []. simpl. rewrite !app_nil_r. auto. Qed.

Lemma tracked_throw {A} e : tracked (@throw W A e).
Proof. intros st. exists []. simpl. rewrite !app_nil_r. auto. Qed.

Lemma tracked_call {R} (c : Call R) : tracked (call env c).
Proof.
  intros st. unfold call. destruct (respond env c (world st)) as [r w].
  eexists. simpl. split; [reflexivity|]. simpl. rewrite app_nil_r. reflexivity.
Qed.

Lemma tracked_console m : tracked (@console W m).
Proof.
  intros st. eexists. simpl. split; [reflexivity|].
  simpl. rewrite app_nil_r. reflexivity.
Qed.

Lemma tracked_push l : tracked (@push W l).
Proof.
  intros st. eexists. simpl. split; [reflexivity|].
  simpl. rewrite app_nil_r. reflexivity.
Qed.

Lemma tracked_bind {A B} (m : M W A) (k : A -> M W B) :
  tracked m -> (forall a, tracked (k a)) -> tracked (bind m k).
Proof.
  intros Hm Hk st. unfold bind.
  destruct (Hm st) as (t & Ht & Hl).
  destruct (m st) as [[a|e] st1]; simpl in *.
  - destruct (Hk a st1) as (t' & Ht' & Hl').
    exists (t ++ t').
    rewrite Ht', Hl', Ht, Hl, emitted_app, <- !app_assoc. auto.
  - eauto.
Qed.

Lemma tracked_try_catch {A} (m : M W A) h :
  tracked m -> (forall e, tracked (h e)) -> tracked (try_catch m h).
Proof.
  intros Hm Hh st. unfold try_catch.
  destruct (Hm st) as (t & Ht & Hl).
  destruct (m st) as [[a|e] st1]; simpl in *.
  - eauto.
  - destruct (Hh e st1) as (t' & Ht' & Hl').
    exists (t ++ t').
    rewrite Ht', Hl', Ht, Hl, emitted_app, <- !app_assoc. auto.
Qed.

Lemma tracked_if {A} (b : bool) (m1 m2 : M W A) :
  tracked m1 -> tracked m2 -> tracked (if b then m1 else m2).
Proof. destruct b; auto. Qed.

Local Hint Resolve tracked_ret tracked_throw tracked_call tracked_console
  tracked_push tracked_bind tracked_try_catch tracked_if : tracked.

Lemma tracked_iteration i : tracked (iteration env i).
Proof.
  unfold iteration, readParameters, guarded, tryBlock, catchBlock,
    runOperation, acquireBrowser, connectBrowser, launchBrowser,
    resolveExecutablePath, locateBrowser.
  repeat first
    [ apply tracked_bind; [|intros ?]
    | apply tracked_try_catch; [|intros ?]
    | apply tracked_if
    | match goal with
      | |- tracked (match ?o with Some _ => _ | None => _ end) => destruct o
      | |- tracked (let (_, _) := ?x in _) => destruct x
      end
    | solve [auto with tracked] ].
Qed.

Lemma tracked_loop k : forall i, tracked (loop env k i).
Proof.
  induction k as [|k IH]; intros i; simpl.
  - apply tracked_ret.
  - apply tracked_bind; [apply tracked_iteration|intros _; apply IH].
Qed.

Lemma tracked_spec {A} (m : M W A) st :
  tracked m ->
  returnData (snd (m st)) = returnData st ++ emitted (log_of m st).
Proof.
  intros H. destruct (H st) as (t & Ht & Hl). unfold log_of.
  rewrite Ht, drop_app_length. exact Hl.
Qed.

(** X1.  The result of a run that returns is one output branch, and that
    branch holds exactly the items the run has pushed, in the order of the
    pushes; nothing that sat in [returnData] before the run is part of
    it. *)
Theorem execute_returns_what_was_pushed st0 out st' :
  execute env st0 = (Ok out, st') ->
  out = [emitted (log_of (execute env) st0)]
  /\ returnData st' = emitted (log_of (execute env) st0).
Proof.
  intros H.
  assert (Hlog : log_of (execute env) st0
                 = drop (length (trace st0)) (trace st')).
  { unfold log_of. rewrite H. reflexivity. }
  rewrite Hlog. clear Hlog. revert H.
  unfold execute, bind, call. simpl.
  destruct (respond env (RequireModule "playwright") (world st0))
    as [[u|e] w1]; simpl; [|intros H; discriminate H].
  match goal with
  | |- context [loop env ?k ?i ?s] =>
      pose proof (tracked_loop k i s) as (t & Ht & Hl);
      destruct (loop env k i s) as [[v|e] st1]
  end; simpl in *; intros H; [|discriminate H].
  injection H as <- <-.
  rewrite Ht, <- app_assoc, drop_app_length. simpl.
  rewrite Hl. auto.
Qed.

(** *** The ends of the run *)

(** X2.  With no input items the run loads the library and returns one
    empty output branch: no credentials are looked up and no browser is
    touched. *)
Theorem execute_empty_input st0 w1 :
  items env = [] ->
  respond env (RequireModule "playwright") (world st0) = (Ok tt, w1) ->
  execute env st0
  = (Ok [[]],
     mkState w1 (trace st0 ++ [Ev (RequireModule "playwright") (Ok tt)]) []).
Proof.
  intros Hitems Hreq. rewrite (execute_eq _ _ _ Hreq), Hitems. reflexivity.
Qed.

(** When loading the library throws, the run throws that error before it
    looks at any item, whether continue-on-fail is on or not. *)
Lemma execute_library_missing st0 e w1 :
  respond env (RequireModule "playwright") (world st0) = (Throw e, w1) ->
  execute env st0
  = (Throw e,
     mkState w1 (trace st0 ++ [Ev (RequireModule "playwright") (Throw e)])
       []).
Proof.
  intros Hreq. unfold execute, bind, call. simpl. rewrite Hreq. reflexivity.
Qed.

(** *** Failure isolation *)

Lemma readParameters_readable i st :
  parameters_readable env ->
  exists operation browserType browserOptions st1,
    readParameters env i st
    = (Ok (operation, browserType, browserOptions), st1).
Proof.
  intros Hp. unfold readParameters, bind, call, ret.
  destruct (Hp i (world st)) as ((op & w1 & H1) & _). rewrite H1. simpl.
  destruct (Hp i w1) as (_ & (bt & w2 & H2) & _). rewrite H2. simpl.
  destruct (Hp i w2) as (_ & _ & (o & w3 & H3)). rewrite H3. simpl.
  eauto.
Qed.

Lemma readParameters_operation i st operation browserType browserOptions st1 :
  no_scripts env ->
  readParameters env i st
    = (Ok (operation, browserType, browserOptions), st1) ->
  operation <> "runCustomScript".
Proof.
  intros Hn. unfold readParameters, bind, call, ret.
  destruct (respond env (GetNodeParameter_operation i) (world st))
    as [[op|e] w1] eqn:H1; simpl; [|discriminate].
  destruct (respond env (GetNodeParameter_browser i) w1)
    as [[bt|e] w2]; simpl; [|discriminate].
  destruct (respond env (GetNodeParameter_browserOptions i) w2)
    as [[o|e] w3]; simpl; [|discriminate].
  intros H. injection H as <- _ _ _. apply (Hn _ _ _ _ H1).
Qed.

Lemma guarded_continues i operation browserType browserOptions st :
  continueOnFail env = true ->
  exists st', guarded env i operation browserType browserOptions st
              = (Ok tt, st').
Proof.
  intros Hcof. unfold guarded, try_catch.
  destruct (tryBlock env i operation browserType browserOptions st)
    as [[[]|e] st1].
  - eauto.
  - rewrite (catchBlock_continue _ _ _ _ Hcof). eauto.
Qed.

Lemma iteration_continues i st :
  continueOnFail env = true ->
  parameters_readable env ->
  exists st', iteration env i st = (Ok tt, st').
Proof.
  intros Hcof Hp.
  destruct (readParameters_readable i st Hp) as (op & bt & o & st1 & Hread).
  rewrite (iteration_eq _ _ _ _ _ _ _ Hread).
  apply guarded_continues. exact Hcof.
Qed.

Lemma loop_continues k :
  continueOnFail env = true ->
  parameters_readable env ->
  forall i st, exists st', loop env k i st = (Ok tt, st').
Proof.
  intros Hcof Hp. induction k as [|k IH]; intros i st; simpl.
  - unfold ret. eauto.
  - destruct (iteration_continues i st Hcof Hp) as (st1 & Hit).
    unfold bind. rewrite Hit. apply IH.
Qed.

(** X3.  With continue-on-fail on and a host that can evaluate the three
    leading parameters of every item, no failure of any item ends the
    run: the loop reaches its end from every item and every state, and a
    run whose library loads returns a result. *)
Theorem continue_on_fail_completes k i st :
  continueOnFail env = true ->
  parameters_readable env ->
  fst (loop env k i st) = Ok tt
  /\ (forall st0 w1,
        respond env (RequireModule "playwright") (world st0) = (Ok tt, w1) ->
        exists out st', execute env st0 = (Ok out, st')).
Proof.
  intros Hcof Hp. split.
  - destruct (loop_continues k Hcof Hp i st) as (st' & ->). reflexivity.
  - intros st0 w1 Hreq. rewrite (execute_eq _ _ _ Hreq).
    match goal with
    | |- context [loop env ?n ?j ?s] =>
        destruct (loop_continues n Hcof Hp j s) as (st' & ->)
    end.
    eauto.
Qed.

(** *** One output per item *)

Lemma tryBlock_single_output
    i operation browserType browserOptions st st' :
  operation <> "runCustomScript" ->
  tryBlock env i operation browserType browserOptions st = (Ok tt, st') ->
  exists item, returnData st' = returnData st ++ [item].
Proof.
  intros Hop H. revert H. exec; try contradiction; intros H;
    try discriminate H; injection H as <-; simpl; eauto.
Qed.

Lemma iteration_single_output i st :
  continueOnFail env = true ->
  parameters_readable env ->
  no_scripts env ->
  exists item st',
    iteration env i st = (Ok tt, st')
    /\ returnData st' = returnData st ++ [item].
Proof.
  intros Hcof Hp Hn.
  destruct (readParameters_readable i st Hp) as (op & bt & o & st1 & Hread).
  pose proof (readParameters_operation _ _ _ _ _ _ Hn Hread) as Hop.
  pose proof (readParameters_output _ _ _ _ _ Hread) as Hout.
  rewrite (iteration_eq _ _ _ _ _ _ _ Hread). unfold guarded, try_catch.
  destruct (tryBlock env i op bt o st1) as [[[]|e] st2] eqn:Htry.
  - destruct (tryBlock_single_output _ _ _ _ _ _ Hop Htry) as (item & Hitem).
    exists item, st2. rewrite Hitem, Hout. auto.
  - rewrite (catchBlock_continue _ _ _ _ Hcof).
    rewrite (tryBlock_throw_output _ _ _ _ _ _ _ _ Htry), Hout.
    eexists _, _. split; reflexivity.
Qed.

Lemma loop_output_length k :
  continueOnFail env = true ->
  parameters_readable env ->
  no_scripts env ->
  forall i st, length (output_of (loop env k i) st) = k.
Proof.
  intros Hcof Hp Hn. induction k as [|k IH]; intros i st.
  - unfold output_of. simpl. rewrite drop_all. reflexivity.
  - destruct (iteration_single_output i st Hcof Hp Hn)
      as (item & st1 & Hit & Hitem).
    unfold output_of at 1. rewrite (loop_output _ _ _ _ _ Hit).
    rewrite drop_app_length, length_app, IH.
    unfold output_of. rewrite Hit. simpl. rewrite Hitem, drop_app_length.
    reflexivity.
Qed.

(** X4.  With continue-on-fail on, readable parameters and no item that
    runs a custom script, every item leaves exactly one entry in the
    output, be it the result of its operation or its error record: the
    loop appends as many entries as it takes turns, and a run whose
    library loads returns one branch with one entry per input item. *)
Theorem one_output_per_item k i st :
  continueOnFail env = true ->
  parameters_readable env ->
  no_scripts env ->
  length (output_of (loop env k i) st) = k
  /\ (forall st0 w1,
        respond env (RequireModule "playwright") (world st0) = (Ok tt, w1) ->
        exists l st',
          execute env st0 = (Ok [l], st')
          /\ length l = length (items env)).
Proof.
  intros Hcof Hp Hn. split.
  - apply loop_output_length; assumption.
  - intros st0 w1 Hreq. rewrite (execute_eq _ _ _ Hreq).
    match goal with
    | |- context [loop env ?n ?j ?s] =>
        pose proof (loop_output_length n Hcof Hp Hn j s) as Hlen;
        unfold output_of in Hlen;
        destruct (loop_continues n Hcof Hp j s) as (st' & Hloop);
        rewrite Hloop in Hlen |- *
    end.
    simpl in Hlen. rewrite drop_0 in Hlen. eauto.
Qed.

(** *** Browsers opened and closed *)

Lemma readParameters_budget i st :
  let t := log_of (readParameters env i) st in
  tally opened t = 0 /\ count KClose t = 0 /\ count KCredentials t = 0
  /\ count KInstall t = 0 /\ count KLocate t = 0 /\ clean t = true.
Proof.
  unfold log_of. exec; rewrite ?drop_app_length; repeat split.
Qed.

Lemma tryBlock_budget i operation browserType browserOptions st :
  let t := log_of (tryBlock env i operation browserType browserOptions) st in
  count KClose t <= tally opened t /\ tally opened t <= 1
  /\ count KCredentials t = 1 /\ count KInstall t <= 1
  /\ count KLocate t <= 2.
Proof.
  unfold log_of. exec; rewrite ?drop_app_length; vm_compute; repeat split;
    repeat constructor.
Qed.

Lemma guarded_budget i operation browserType browserOptions st :
  let t := log_of (guarded env i operation browserType browserOptions) st in
  count KClose t <= tally opened t /\ tally opened t <= 1
  /\ count KCredentials t = 1 /\ count KInstall t <= 1
  /\ count KLocate t <= 2.
Proof.
  intros t. subst t. rewrite log_of_guarded, !count_app, !tally_app.
  destruct (tryBlock_budget i operation browserType browserOptions st)
    as (H1 & H2 & H3 & H4 & H5). cbv zeta in *.
  destruct (tryBlock env i operation browserType browserOptions st)
    as [[a|e] st1]; [|destruct (continueOnFail env)];
    unfold count, tally in *; simpl; lia.
Qed.

Lemma iteration_budget i st :
  let t := log_of (iteration env i) st in
  count KClose t <= tally opened t /\ tally opened t <= 1
  /\ count KCredentials t <= 1 /\ count KInstall t <= 1
  /\ count KLocate t <= 2.
Proof.
  intros t. subst t. rewrite log_of_iteration.
  rewrite !count_app, !tally_app.
  destruct (readParameters_budget i st) as (-> & -> & -> & -> & -> & _).
  destruct (readParameters env i st) as [[[[op bt] o]|e] st1].
  - destruct (guarded_budget i op bt o st1) as (H1 & H2 & H3 & H4 & H5).
    cbv zeta in *. simpl. lia.
  - simpl. unfold count, tally. simpl. lia.
Qed.

(** X5.  Over any stretch of the loop the method calls [close] at most as
    often as it has been handed a browser, is handed at most one browser
    per turn, and per turn looks the credentials up at most once, calls
    the installer at most once and the locator at most twice. *)
Theorem run_call_budget k i st :
  let t := log_of (loop env k i) st in
  count KClose t <= tally opened t
  /\ tally opened t <= k
  /\ count KCredentials t <= k
  /\ count KInstall t <= k
  /\ count KLocate t <= 2 * k.
Proof.
  revert i st. induction k as [|k IH]; intros i st t; subst t.
  - unfold log_of. simpl. rewrite drop_all. unfold count, tally. simpl. lia.
  - rewrite log_of_loop_S, !count_app, !tally_app.
    destruct (iteration_budget i st) as (H1 & H2 & H3 & H4 & H5).
    destruct (iteration env i st) as [[[]|e] st1].
    + destruct (IH (S i) st1) as (G1 & G2 & G3 & G4 & G5).
      cbv zeta in *. lia.
    + cbv zeta in *. unfold count, tally in *. simpl in *. lia.
Qed.

Lemma tryBlock_ok_counts i operation browserType browserOptions st st' :
  tryBlock env i operation browserType browserOptions st = (Ok tt, st') ->
  let t := log_of (tryBlock env i operation browserType browserOptions) st in
  tally opened t = 1 /\ count KClose t = 1 /\ count KCredentials t = 1
  /\ count KPush t = 1.
Proof.
  intros H. exec_success H; repeat split.
Qed.

Lemma guarded_clean i operation browserType browserOptions st st' :
  guarded env i operation browserType browserOptions st = (Ok tt, st') ->
  clean (log_of (guarded env i operation browserType browserOptions) st)
    = true ->
  let t := log_of (guarded env i operation browserType browserOptions) st in
  tally opened t = 1 /\ count KClose t = 1 /\ count KCredentials t = 1
  /\ count KPush t = 1.
Proof.
  intros H Hc t. subst t. revert Hc H.
  rewrite log_of_guarded, clean_app. unfold guarded, try_catch.
  destruct (tryBlock env i operation browserType browserOptions st)
    as [[[]|e] st1] eqn:Htry.
  - intros _ _. rewrite app_nil_r.
    apply (tryBlock_ok_counts _ _ _ _ _ _ Htry).
  - intros Hc _. apply andb_true_iff in Hc. destruct Hc as (_ & Hc).
    discriminate Hc.
Qed.

Lemma iteration_clean i st st' :
  iteration env i st = (Ok tt, st') ->
  clean (log_of (iteration env i) st) = true ->
  let t := log_of (iteration env i) st in
  tally opened t = 1 /\ count KClose t = 1 /\ count KCredentials t = 1
  /\ count KPush t = 1.
Proof.
  intros H Hc t. subst t. revert Hc. rewrite log_of_iteration.
  rewrite clean_app, !count_app, !tally_app.
  destruct (readParameters_budget i st) as (-> & -> & -> & _ & _ & ->).
  assert (Hpush : count KPush (log_of (readParameters env i) st) = 0).
  { unfold log_of. exec; rewrite ?drop_app_length; reflexivity. }
  rewrite Hpush. clear Hpush. revert H. unfold iteration, bind.
  destruct (readParameters env i st) as [[[[op bt] o]|e] st1];
    [|discriminate].
  simpl. intros H Hc. apply (guarded_clean _ _ _ _ _ _ H Hc).
Qed.

(** X6.  A stretch of the loop that reaches its end without any [catch]
    block having run has opened exactly one browser per turn and has
    called [close] exactly once per turn: a run without failures leaves
    no browser open. *)
Theorem clean_run_closes_every_browser k i st :
  fst (loop env k i st) = Ok tt ->
  clean (log_of (loop env k i) st) = true ->
  let t := log_of (loop env k i) st in
  tally opened t = k /\ count KClose t = k /\ count KCredentials t = k
  /\ count KPush t = k.
Proof.
  revert i st. induction k as [|k IH]; intros i st H Hc t; subst t.
  - unfold log_of. simpl. rewrite drop_all. repeat split.
  - revert Hc. rewrite log_of_loop_S, clean_app, !count_app, !tally_app.
    revert H. simpl. unfold bind.
    destruct (iteration env i st) as [[[]|e] st1] eqn:Hit;
      [|discriminate].
    intros H Hc. apply andb_true_iff in Hc. destruct Hc as (Hc1 & Hc2).
    destruct (iteration_clean _ _ _ Hit Hc1) as (-> & -> & -> & ->).
    destruct (IH (S i) st1 H Hc2) as (-> & -> & -> & ->).
    repeat split.
Qed.

(** *** Connect mode *)

(** X7.  In connect mode the method never asks the locator, never calls
    the installer and never launches a browser, and neither the
    [executablePath] of the credentials nor the [headless] option of the
    item has any influence on the outcome. *)
Theorem connect_mode_ignores_launch_settings
    credentials browserType browserOptions st :
  connectionType credentials = Some "connect" ->
  let t := log_of (acquireBrowser env credentials browserType browserOptions)
             st in
  never KLocate t /\ never KInstall t /\ never KLaunch t
  /\ (forall path h,
        acquireBrowser env
          (mkCredentials (connectionType credentials) path
             (endpointUrl credentials))
          browserType (mkBrowserOptions h (slowMo browserOptions)) st
        = acquireBrowser env credentials browserType browserOptions st).
Proof.
  intros Hmode t. subst t. repeat split.
  1-3: unfold log_of; exec; try congruence;
       rewrite ?drop_app_length, ?drop_all; solve_never.
  intros path h. unfold acquireBrowser. simpl.
  rewrite !bool_decide_eq_true_2 by exact Hmode. reflexivity.
Qed.

(** *** The installer and the explicit executable *)

Lemma guarded_output_on_throw
    i operation browserType browserOptions st e st' :
  continueOnFail env = true ->
  tryBlock env i operation browserType browserOptions st = (Throw e, st') ->
  output_of (guarded env i operation browserType browserOptions) st
  = [errorRecord e browserType (platform env)].
Proof.
  intros Hcof H. unfold output_of, guarded.
  rewrite (try_catch_throw _ _ _ _ _ H).
  rewrite (catchBlock_continue _ _ _ _ Hcof). simpl.
  rewrite (tryBlock_throw_output _ _ _ _ _ _ _ _ H).
  apply drop_app_length.
Qed.

(** X8.  When the locator throws and the installer throws as well, the
    locator is not asked again and no browser is launched: the
    acquisition ends with the error of the installer, and with
    continue-on-fail on it is that error, not the one of the locator,
    that the record of the item carries. *)
Theorem installer_failure_is_final
    credentials browserType browserOptions st e1 w1 e2 w2 :
  let locate := GetBrowserExecutablePath browserType (browsersPath env) in
  connectionType credentials <> Some "connect" ->
  executablePath credentials = None
  \/ executablePath credentials = Some "" ->
  respond env locate (world st) = (Throw e1, w1) ->
  respond env (InstallBrowser browserType) w1 = (Throw e2, w2) ->
  acquireBrowser env credentials browserType browserOptions st
  = (Throw e2,
     mkState w2
       (trace st ++ [Ev locate (Throw e1);
                     Console (ErrBrowserPath (message e1));
                     Ev (InstallBrowser browserType) (Throw e2)])
       (returnData st))
  /\ (forall i operation st0,
        continueOnFail env = true ->
        call env (GetCredentials "playwrightCredentials") st0
          = (Ok credentials, st) ->
        output_of (guarded env i operation browserType browserOptions) st0
        = [errorRecord e2 browserType (platform env)]).
Proof.
  intros locate Hmode Hempty H1 H2.
  assert (Hacq : acquireBrowser env credentials browserType browserOptions st
                 = (Throw e2,
                    mkState w2
                      (trace st ++ [Ev locate (Throw e1);
                                    Console (ErrBrowserPath (message e1));
                                    Ev (InstallBrowser browserType)
                                       (Throw e2)])
                      (returnData st))).
  { rewrite (launch_mode _ _ _ _ Hmode). unfold launchBrowser.
    apply bind_throw. rewrite (resolveExecutablePath_empty _ _ _ Hempty).
    apply (locateBrowser_install_fails _ _ _ _ _ _ _ H1 H2). }
  split; [exact Hacq|].
  intros i operation st0 Hcof Hcred.
  apply guarded_output_on_throw with (st' :=
    mkState w2
      (trace st ++ [Ev locate (Throw e1);
                    Console (ErrBrowserPath (message e1));
                    Ev (InstallBrowser browserType) (Throw e2)])
      (returnData st)); [exact Hcof|].
  unfold tryBlock. rewrite (bind_ok _ _ _ _ _ Hcred).
  apply bind_throw. exact Hacq.
Qed.

(** X9.  In launch mode a non-empty [executablePath] of the credentials
    bypasses locator and installer altogether: right after the
    credentials lookup the browser is launched from that very path. *)
Theorem explicit_path_skips_locator
    i operation browserType browserOptions st credentials w1 path :
  respond env (GetCredentials "playwrightCredentials") (world st)
    = (Ok credentials, w1) ->
  connectionType credentials <> Some "connect" ->
  executablePath credentials = Some path ->
  path <> "" ->
  let t := log_of (tryBlock env i operation browserType browserOptions) st in
  never KLocate t /\ never KInstall t
  /\ exists r t',
      t = Ev (GetCredentials "playwrightCredentials") (Ok credentials)
          :: Console (LogLaunching path)
          :: Ev (Launch browserType
                   (mkLaunchOptions (headless_not_false browserOptions)
                      (slowMo_or_0 browserOptions) path)) r
          :: t'.
Proof.
  intros Hcred Hmode Hpath Hne t. subst t.
  unfold log_of. exec_unfold. rewrite Hcred. simpl.
  rewrite bool_decide_eq_false_2 by exact Hmode.
  rewrite Hpath. rewrite bool_decide_eq_false_2 by exact Hne. simpl.
  repeat exec_step; rewrite <- ?app_assoc; simpl;
    rewrite drop_app_length;
    (split; [solve_never | split; [solve_never | eauto]]).
Qed.

(** *** A close that fails *)

(** X10.  When it is [browser.close()] that throws, the operation of the
    item had already returned its result, and that result is lost: the
    [try] block has pushed nothing, and with continue-on-fail on the only
    output of the item is the record of the close error. *)
Theorem close_failure_discards_result
    i operation browserType browserOptions st e st' :
  tryBlock env i operation browserType browserOptions st = (Throw e, st') ->
  failing_call
    (log_of (tryBlock env i operation browserType browserOptions) st)
    = Some KClose ->
  let t := log_of (tryBlock env i operation browserType browserOptions) st in
  tally completes_operation t = 1
  /\ never KPush t
  /\ returnData st' = returnData st
  /\ (continueOnFail env = true ->
      output_of (guarded env i operation browserType browserOptions) st
      = [errorRecord e browserType (platform env)]).
Proof.
  intros H Hcall t. subst t.
  split; [|split; [|split]].
  - revert Hcall. exec_failure H; intros Hcall;
      try (vm_compute in Hcall; discriminate Hcall); reflexivity.
  - revert Hcall. exec_failure H; intros Hcall;
      try (vm_compute in Hcall; discriminate Hcall); solve_never.
  - apply (tryBlock_throw_output _ _ _ _ _ _ _ _ H).
  - intros Hcof. apply (guarded_output_on_throw _ _ _ _ _ _ _ Hcof H).
Qed.

(** *** Handles stay within their item *)

Lemma passive_event h ev :
  In (kind ev) [KParameter; KConsole; KPush] ->
  uses_held h ev /\ hand_out h ev = h.
Proof.
  destruct ev as [R c r| |]; simpl; [|auto|auto].
  destruct c; simpl; intros H;
    try (exfalso; intuition discriminate);
    destruct r; auto.
Qed.

Lemma scoped_passive_prefix h (t1 t2 : list Event) :
  Forall (fun ev => In (kind ev) [KParameter; KConsole; KPush]) t1 ->
  scoped h t2 -> scoped h (t1 ++ t2).
Proof.
  intros H1 H2. induction H1 as [|ev t1 Hev _ IH]; simpl; [exact H2|].
  destruct (passive_event h ev Hev) as (Hu & ->). auto.
Qed.

Lemma scoped_passive_suffix h (t1 t2 : list Event) :
  scoped h t1 ->
  Forall (fun ev => In (kind ev) [KParameter; KConsole; KPush]) t2 ->
  scoped h (t1 ++ t2).
Proof.
  revert h. induction t1 as [|ev t1 IH]; intros h H1 H2; simpl.
  - rewrite <- (app_nil_r t2). apply scoped_passive_prefix; [exact H2|].
    exact I.
  - destruct H1 as (Hu & H1). split; [exact Hu|]. apply IH; assumption.
Qed.

(** X11.  Whatever path a turn of the loop takes, every call it makes on
    a browser, a context or a page goes to the handle that the latest
    acquisition, [newContext] or [newPage] of this same turn has
    returned: no turn ever uses a handle of an earlier item. *)
Theorem handles_stay_within_item i st :
  scoped no_handles (log_of (iteration env i) st).
Proof.
  rewrite log_of_iteration. apply scoped_passive_prefix.
  { unfold log_of. exec; rewrite ?drop_app_length; solve_passive. }
  destruct (readParameters env i st) as [[[[op bt] o]|e] st1];
    [|exact I].
  rewrite log_of_guarded. apply scoped_passive_suffix.
  - unfold log_of. exec; rewrite ?drop_app_length, ?drop_all; simpl;
      repeat split.
  - destruct (tryBlock env i op bt o st1) as [[a|e] st2];
      [constructor|].
    destruct (continueOnFail env); solve_passive.
Qed.

(** *** The forms and the method *)

(** X12.  For every operation the node offers, the URL field of the form
    is shown exactly when the method reads the [url] parameter: either
    the field is shown and reading [url] is the first thing done once the
    page is open, or the field is hidden and the operation part of the
    item reads no parameter at all. *)
Theorem url_field_shown_iff_read
    operationProperty urlProperty operation values i b p st :
  find_property nodeProperties "operation" = Some operationProperty ->
  find_property nodeProperties "url" = Some urlProperty ->
  In operation (choices operationProperty) ->
  values "operation" = operation ->
  (displayed values urlProperty = true
   /\ exists r t,
       log_of (runOperation env i operation b p) st
       = Ev (GetNodeParameter_url i) r :: t)
  \/ (displayed values urlProperty = false
      /\ never KParameter (log_of (runOperation env i operation b p) st)).
Proof.
  intros Hop Hurl Hin Hv.
  vm_compute in Hop. injection Hop as <-.
  vm_compute in Hurl. injection Hurl as <-.
  unfold displayed. cbn [p_show forallb fst snd]. rewrite Hv. clear Hv.
  cbv in Hin.
  destruct Hin as [<-|[<-|[<-|[<-|[<-|[<-|[]]]]]]];
    first
      [ solve [ left; split; [vm_compute; reflexivity|];
                unfold log_of; exec; try congruence;
                rewrite drop_app_length; eauto ]
      | solve [ right; split; [vm_compute; reflexivity|];
                unfold log_of; exec; try congruence;
                rewrite drop_app_length; solve_never ] ].
Qed.

(** X13.  For each connection type the credential form offers, a field
    that the form hides for that type is never read: two sets of
    credentials of that type that agree on the fields shown lead the
    browser acquisition to the same outcome. *)
Theorem hidden_credential_fields_unread
    connectionTypeProperty ct values c c' browserType browserOptions st :
  find_property credentialProperties "connectionType"
    = Some connectionTypeProperty ->
  In ct (choices connectionTypeProperty) ->
  values "connectionType" = ct ->
  connectionType c = Some ct ->
  connectionType c' = Some ct ->
  (forall q,
     In q credentialProperties ->
     displayed values q = true ->
     credential_field (p_name q) c = credential_field (p_name q) c') ->
  acquireBrowser env c browserType browserOptions st
  = acquireBrowser env c' browserType browserOptions st.
Proof.
  intros Hprop Hin Hv Hc Hc' Hsame.
  vm_compute in Hprop. injection Hprop as <-.
  cbv in Hin. destruct Hin as [<-|[<-|[]]].
  - assert (Hpath : executablePath c = executablePath c').
    { apply (Hsame (mkProperty "executablePath" t_string (JStr "") []
                      [("connectionType", ["launch"])] false false)).
      - simpl. auto.
      - unfold displayed. cbn [p_show forallb fst snd]. rewrite Hv.
        vm_compute. reflexivity. }
    unfold acquireBrowser. rewrite Hc, Hc'.
    rewrite !bool_decide_eq_false_2 by discriminate.
    unfold launchBrowser, resolveExecutablePath. rewrite Hpath.
    reflexivity.
  - assert (Hend : endpointUrl c = endpointUrl c').
    { apply (Hsame (mkProperty "endpointUrl" t_string (JStr "") []
                      [("connectionType", ["connect"])] false false)).
      - simpl. auto.
      - unfold displayed. cbn [p_show forallb fst snd]. rewrite Hv.
        vm_compute. reflexivity. }
    unfold acquireBrowser. rewrite Hc, Hc'.
    rewrite !bool_decide_eq_true_2 by reflexivity.
    unfold connectBrowser. rewrite Hend. reflexivity.
Qed.

End Run.

(** ** Worked examples for the run as a whole *)

(** Two items navigate; [returnData] held a stale item before the run. *)
Lemma execute_returns_what_was_pushed_witness :
  fst (execute (Demo.environment Demo.plain 2 true) Demo.stale_start)
  = Ok [emitted (log_of (execute (Demo.environment Demo.plain 2 true))
                   Demo.stale_start)]
  /\ emitted (log_of (execute (Demo.environment Demo.plain 2 true))
                Demo.stale_start)
     = [Demo.page_item "Example Domain"; Demo.page_item "Example Domain"].
Proof.
  destruct (execute_returns_what_was_pushed
              (Demo.environment Demo.plain 2 true) Demo.stale_start
              [[Demo.page_item "Example Domain";
                Demo.page_item "Example Domain"]]
              (snd (execute (Demo.environment Demo.plain 2 true)
                      Demo.stale_start))
              ltac:(vm_compute; reflexivity)) as (Hout & _).
  split.
  - rewrite <- Hout. vm_compute. reflexivity.
  - vm_compute. reflexivity.
Defined.

Lemma execute_empty_input_witness :
  execute (Demo.environment Demo.plain 0 true) (Demo.start true)
  = (Ok [[]],
     mkState (Demo.mkWorld true 0)
       [Ev (RequireModule "playwright") (Ok tt)] []).
Proof.
  apply (execute_empty_input (Demo.environment Demo.plain 0 true)
           (Demo.start true) (Demo.mkWorld true 0));
    reflexivity.
Defined.

(** The library is missing and continue-on-fail is on. *)
Lemma execute_library_missing_witness :
  continueOnFail (Demo.environment_without_library Demo.plain 2 true) = true
  /\ execute (Demo.environment_without_library Demo.plain 2 true)
       (Demo.start true)
     = (Throw Demo.module_error,
        mkState (Demo.mkWorld true 0)
          [Ev (RequireModule "playwright") (Throw Demo.module_error)] []).
Proof.
  split; [reflexivity|].
  apply (execute_library_missing
           (Demo.environment_without_library Demo.plain 2 true)
           (Demo.start true) Demo.module_error (Demo.mkWorld true 0)).
  reflexivity.
Defined.

Lemma demo_parameters_readable s n cof :
  (forall i, exists v, Demo.s_operation s i = Ok v) ->
  (forall i, exists v, Demo.s_browser s i = Ok v) ->
  (forall i, exists v, Demo.s_browserOptions s i = Ok v) ->
  parameters_readable (Demo.environment s n cof).
Proof.
  intros H1 H2 H3 i w. simpl.
  destruct (H1 i) as (v1 & ->), (H2 i) as (v2 & ->), (H3 i) as (v3 & ->).
  repeat split; eauto.
Qed.

Lemma unreachable_readable n cof :
  parameters_readable (Demo.environment Demo.unreachable n cof).
Proof. apply demo_parameters_readable; intros i; simpl; eauto. Qed.

Lemma unreachable_no_scripts n cof :
  no_scripts (Demo.environment Demo.unreachable n cof).
Proof.
  intros i w v w' H. simpl in H. injection H as <- _. discriminate.
Qed.

(** Three items, every navigation fails, continue-on-fail is on. *)
Lemma continue_on_fail_completes_witness :
  fst (loop (Demo.environment Demo.unreachable 3 true) 3 0 (Demo.start true))
  = Ok tt.
Proof.
  apply (continue_on_fail_completes
           (Demo.environment Demo.unreachable 3 true) 3 0 (Demo.start true)
           eq_refl (unreachable_readable 3 true)).
Defined.

Lemma one_output_per_item_witness :
  length (output_of (loop (Demo.environment Demo.unreachable 3 true) 3 0)
                    (Demo.start true)) = 3.
Proof.
  apply (one_output_per_item
           (Demo.environment Demo.unreachable 3 true) 3 0 (Demo.start true)
           eq_refl (unreachable_readable 3 true)
           (unreachable_no_scripts 3 true)).
Defined.

(** Two items navigate without any failure. *)
Lemma clean_run_closes_every_browser_witness :
  tally opened
    (log_of (loop (Demo.environment Demo.plain 2 true) 2 0) (Demo.start true))
  = 2
  /\ count KClose
       (log_of (loop (Demo.environment Demo.plain 2 true) 2 0)
               (Demo.start true))
     = 2.
Proof.
  pose proof (clean_run_closes_every_browser
                (Demo.environment Demo.plain 2 true) 2 0 (Demo.start true)
                ltac:(vm_compute; reflexivity)
                ltac:(vm_compute; reflexivity)) as H.
  cbv zeta in H. destruct H as (H1 & H2 & _). split; assumption.
Defined.

(** Chromium over CDP: an executable in the credentials and the
    [headless] option change nothing. *)
Lemma connect_mode_ignores_launch_settings_witness :
  acquireBrowser (Demo.environment Demo.connect_chromium 1 true)
    (mkCredentials (Some "connect") (Some "/usr/bin/firefox")
       (Some "http://localhost:9222"))
    "chromium" (mkBrowserOptions (Some true) (Some 250%Z)) (Demo.start true)
  = acquireBrowser (Demo.environment Demo.connect_chromium 1 true)
      Demo.cdp_credentials "chromium" Demo.slow_options (Demo.start true).
Proof.
  pose proof (connect_mode_ignores_launch_settings
                (Demo.environment Demo.connect_chromium 1 true)
                Demo.cdp_credentials "chromium" Demo.slow_options
                (Demo.start true) eq_refl) as H.
  cbv zeta in H. destruct H as (_ & _ & _ & H).
  exact (H (Some "/usr/bin/firefox") (Some true)).
Defined.

(** Nothing is installed and the download fails. *)
Lemma installer_failure_is_final_witness :
  acquireBrowser (Demo.environment Demo.install_fails 1 true)
    (mkCredentials (Some "launch") (Some "") None) "firefox"
    Demo.no_options (Demo.start false)
  = (Throw Demo.download_error,
     mkState (Demo.mkWorld false 0)
       [Ev (GetBrowserExecutablePath "firefox" "/opt/node/browsers")
           (Throw (mkError "Browser executable not found"));
        Console (ErrBrowserPath "Browser executable not found");
        Ev (InstallBrowser "firefox") (Throw Demo.download_error)]
       []).
Proof.
  pose proof (installer_failure_is_final
                (Demo.environment Demo.install_fails 1 true)
                (mkCredentials (Some "launch") (Some "") None) "firefox"
                Demo.no_options (Demo.start false)
                (mkError "Browser executable not found")
                (Demo.mkWorld false 0) Demo.download_error
                (Demo.mkWorld false 0)) as H.
  cbv zeta in H.
  destruct H as (H & _);
    [discriminate | right; reflexivity | reflexivity | reflexivity |].
  exact H.
Defined.

(** Chromium launched from the executable named in the credentials. *)
Lemma explicit_path_skips_locator_witness :
  never KLocate
    (log_of (tryBlock (Demo.environment Demo.explicit_chrome 1 true) 0
               "navigate" "chromium" Demo.no_options) (Demo.start false))
  /\ never KInstall
       (log_of (tryBlock (Demo.environment Demo.explicit_chrome 1 true) 0
                  "navigate" "chromium" Demo.no_options) (Demo.start false)).
Proof.
  pose proof (explicit_path_skips_locator
                (Demo.environment Demo.explicit_chrome 1 true) 0
                "navigate" "chromium" Demo.no_options (Demo.start false)
                Demo.chrome_credentials (Demo.mkWorld false 0)
                "/usr/bin/google-chrome-stable"
                eq_refl ltac:(discriminate) eq_refl ltac:(discriminate))
    as H.
  cbv zeta in H. destruct H as (H1 & H2 & _). split; assumption.
Defined.

(** The page was read, then closing the browser fails. *)
Lemma close_failure_discards_result_witness :
  never KPush
    (log_of (tryBlock (Demo.environment Demo.close_fails 1 true) 0
               "navigate" "firefox" Demo.no_options) (Demo.start true))
  /\ output_of (guarded (Demo.environment Demo.close_fails 1 true) 0
                  "navigate" "firefox" Demo.no_options) (Demo.start true)
     = [errorRecord Demo.closed_error "firefox" "linux"].
Proof.
  pose proof (close_failure_discards_result
                (Demo.environment Demo.close_fails 1 true) 0
                "navigate" "firefox" Demo.no_options (Demo.start true)
                Demo.closed_error
                (snd (tryBlock (Demo.environment Demo.close_fails 1 true) 0
                        "navigate" "firefox" Demo.no_options
                        (Demo.start true)))
                ltac:(vm_compute; reflexivity)
                ltac:(vm_compute; reflexivity)) as H.
  cbv zeta in H. destruct H as (_ & H1 & _ & H2).
  split; [exact H1 | exact (H2 eq_refl)].
Defined.

(** [getText] shows the URL field, [runCustomScript] hides it. *)
Lemma url_field_shown_iff_read_witness :
  (exists r t,
     log_of (runOperation (Demo.environment Demo.plain 1 true) 0
               "getText" 0 2) (Demo.start true)
     = Ev (GetNodeParameter_url 0) r :: t)
  /\ never KParameter
       (log_of (runOperation (Demo.environment Demo.scripted 1 true) 0
                  "runCustomScript" 0 2) (Demo.start true)).
Proof.
  split.
  - destruct (url_field_shown_iff_read
                (Demo.environment Demo.plain 1 true)
                _ _ "getText" (fun _ => "getText") 0 0 2 (Demo.start true)
                eq_refl eq_refl
                ltac:(vm_compute; tauto) eq_refl) as [(_ & H) | (H & _)].
    + exact H.
    + vm_compute in H. discriminate H.
  - destruct (url_field_shown_iff_read
                (Demo.environment Demo.scripted 1 true)
                _ _ "runCustomScript" (fun _ => "runCustomScript") 0 0 2
                (Demo.start true) eq_refl eq_refl
                ltac:(vm_compute; tauto) eq_refl) as [(H & _) | (_ & H)].
    + vm_compute in H. discriminate H.
    + exact H.
Defined.

(** Launch credentials that differ in the hidden endpoint only. *)
Lemma hidden_credential_fields_unread_witness :
  acquireBrowser (Demo.environment Demo.plain 1 true)
    (mkCredentials (Some "launch") (Some "") (Some "http://localhost:9222"))
    "firefox" Demo.no_options (Demo.start true)
  = acquireBrowser (Demo.environment Demo.plain 1 true)
      (mkCredentials (Some "launch") (Some "") None)
      "firefox" Demo.no_options (Demo.start true).
Proof.
  apply (hidden_credential_fields_unread
           (Demo.environment Demo.plain 1 true)
           (mkProperty "connectionType" t_options (JStr "launch")
              [Choice "Launch Browser" "launch";
               Choice "Connect Over CDP" "connect"]
              [] false false)
           "launch" (fun _ => "launch")).
  - reflexivity.
  - vm_compute. tauto.
  - reflexivity.
  - reflexivity.
  - reflexivity.
  - intros q Hin Hd.
    destruct Hin as [<-|[<-|[<-|[]]]];
      solve [ reflexivity | vm_compute in Hd; discriminate Hd ].
Defined.
